(** * GEMINI-Scanner: the capture / analyse pipeline of [main.py]

    A shallow embedding of [notify_toast], [capture_et_analyse] and
    [log_gemini_response], with the outside world (screen grabber, PNG
    encoder, Gemini client, clipboard, toast channel, log file) given by an
    oracle record, and every effect of a run recorded in a trace. *)

From Equations Require Import Equations.
From Stdlib Require Import Ascii String.
From Stdlib Require Import List NArith ZArith QArith Arith Lia Bool.
From Stdlib Require DecimalString.
Import ListNotations.

Set Implicit Arguments.
Set Default Proof Using "Type".

(** ** Python strings

    A Python [str] is a sequence of Unicode code points. *)

Definition pychar := N.
Definition pystr := list pychar.

(** An ASCII literal of the source, code point by code point. *)
Fixpoint lit (s : string) : pystr :=
  match s with
  | EmptyString => []
  | String c s' => N_of_ascii c :: lit s'
  end.

(** The accented letters of the French messages (U+00E9, U+00E8, U+00E7)
    and the line feed. *)
Definition e_acute : pychar := 233%N.
Definition e_grave : pychar := 232%N.
Definition c_cedilla : pychar := 231%N.
Definition newline : pychar := 10%N.

(** [str(n)] for a non-negative [int]. *)
Definition str_of_nat (n : nat) : pystr :=
  lit (DecimalString.NilEmpty.string_of_uint (Nat.to_uint n)).

(** [str.isspace] on one code point: the table behind [str.strip()]. *)
Definition isspace (c : pychar) : bool :=
  ((9 <=? c) && (c <=? 13) || (28 <=? c) && (c <=? 32)
   || (c =? 133) || (c =? 160) || (c =? 5760)
   || (8192 <=? c) && (c <=? 8202)
   || (c =? 8232) || (c =? 8233) || (c =? 8239) || (c =? 8287)
   || (c =? 12288))%N.

Fixpoint lstrip (s : pystr) : pystr :=
  match s with
  | [] => []
  | c :: s' => if isspace c then lstrip s' else s
  end.

Definition rstrip (s : pystr) : pystr := rev (lstrip (rev s)).

(** [s.strip()] *)
Definition strip (s : pystr) : pystr := rstrip (lstrip s).

Fixpoint startswith (p s : pystr) : bool :=
  match p, s with
  | [], _ => true
  | _ :: _, [] => false
  | a :: p', b :: s' => (a =? b)%N && startswith p' s'
  end.

(** [p in s] *)
Fixpoint contains (p s : pystr) : bool :=
  startswith p s ||
  match s with
  | [] => false
  | _ :: s' => contains p s'
  end.

(** The logical reading of [p in s]. *)
Definition substring (p s : pystr) : Prop :=
  exists l r, s = l ++ p ++ r.

(** ** Exceptions, log records and traces *)

Record exception := Exc {
  exc_class : pystr;   (* the name of the exception's class *)
  exc_str : pystr      (* str(e) *)
}.

Inductive level := INFO | WARNING | ERROR.

(** What one call of [notify_toast] does. *)
Inductive toast_event :=
| TLog (lvl : level) (msg : pystr)     (* a record sent to [logger] *)
| TShow (title msg : pystr)            (* a toast handed to winotify *)
| TSleep (secs : Q).                   (* [time.sleep] *)

(** What one run of the pipeline does; a call of [notify_toast] carries the
    effects of that call. [Log] is a call of [logger]: whether the handler
    writes the record depends on LOG_LEVEL, which plays no part here. *)
Inductive event :=
| Log (lvl : level) (msg : pystr)
| Notify (title message : pystr) (effects : list toast_event)
| Grab                                 (* [ImageGrab.grab] *)
| Encode                               (* [save] / [seek] / [Image.open] *)
| Generate (attempt : nat)             (* [gemini_model.generate_content] *)
| Copy (text : pystr)                  (* [pyperclip.copy] *)
| Sleep (secs : Z).                    (* [time.sleep] *)

(** The outside world, as the oracle of one run. *)
Record world := World {
  USE_WINOTIFY : bool;
  (* [None]: the toast is shown; [Some x]: building or showing it raises *)
  show_error : pystr -> pystr -> option exception;
  grab_error : option exception;
  encode_error : option exception;
  (* the reply to the call made by attempt [n]: [response.text] or a raise *)
  generate_content : nat -> pystr + exception;
  copy_error : pystr -> option exception;
  strftime : pystr;                    (* the formatted current time *)
  open_error : option exception        (* opening the response log *)
}.

Record state := State {
  clipboard : pystr;
  responses_log : pystr                (* gemini_responses.log *)
}.

(** The exits of [capture_et_analyse], named after the pipeline's states;
    [Raised] is an exception leaving the function. *)
Inductive outcome := Succeeded | Failed | Raised (x : exception).

(** ** The notifier *)

Definition max_len : nat := 300.

(** [[
    while text:
        parts.append(text[:max_len])
        text = text[max_len:]
    ]] *)
Equations? split_parts (text : pystr) : list pystr by wf (length text) lt :=
  split_parts [] := [];
  split_parts (c :: text') :=
    firstn max_len (c :: text') :: split_parts (skipn max_len (c :: text')).
Proof.
  change (Datatypes.length (skipn 299 text') < S (Datatypes.length text'))%nat.
  rewrite length_skipn. lia.
Qed.

Section Notifier.
Variable w : world.

(** The body of [for idx, part in enumerate(parts)], from [idx] on. *)
Fixpoint show_parts (title : pystr) (total idx : nat) (parts : list pystr)
  : list toast_event :=
  match parts with
  | [] => []
  | part :: rest =>
      let title' :=
        title ++ (if 1 <? total
                  then lit " (" ++ str_of_nat (idx + 1) ++ lit "/"
                       ++ str_of_nat total ++ lit ")"
                  else []) in
      TShow title' part
      :: match show_error w title' part with
         | None =>
             TLog INFO (lit "Notification affich" ++ [e_acute] ++ lit "e: "
                        ++ title ++ lit " (part " ++ str_of_nat (idx + 1)
                        ++ lit ")")
         | Some x => TLog ERROR (lit "Erreur notification: " ++ exc_str x)
         end
      :: TSleep (3 # 10)
      :: show_parts title total (idx + 1) rest
  end.

Definition notify_toast (title message : pystr) : list toast_event :=
  if USE_WINOTIFY w then
    let text := strip message in
    let parts := split_parts text in
    show_parts title (length parts) 0 parts
  else
    [TLog INFO (lit "[Notification] " ++ title ++ lit ": "
                ++ firstn 256 message)].
End Notifier.

(** The chunks handed to the toast channel, in delivery order. *)
Fixpoint shown (evs : list toast_event) : list pystr :=
  match evs with
  | [] => []
  | TShow _ msg :: evs' => msg :: shown evs'
  | _ :: evs' => shown evs'
  end.

(** ** Effects

    A computation reads the state and returns a value, the events it caused
    (oldest first) and the state it leaves. *)

Record ran (A : Type) := Ran {
  value : A;
  events : list event;
  after : state
}.

Definition M (A : Type) : Type := state -> ran A.

Definition ret {A : Type} (a : A) : M A := fun s => Ran a [] s.

Definition bind {A B : Type} (m : M A) (k : A -> M B) : M B :=
  fun s =>
    match m s with
    | Ran a evs1 s1 =>
        match k a s1 with
        | Ran b evs2 s2 => Ran b (evs1 ++ evs2) s2
        end
    end.

Notation "x <- m ;; k" := (bind m (fun x => k))
  (at level 61, m at next level, right associativity).
Notation "m ;; k" := (bind m (fun _ => k))
  (at level 61, right associativity).

Definition emit (ev : event) : M unit := fun s => Ran tt [ev] s.

Definition set_clipboard (text : pystr) : M unit :=
  fun s => Ran tt [] (State text (responses_log s)).

Definition append_responses_log (block : pystr) : M unit :=
  fun s => Ran tt [] (State (clipboard s) (responses_log s ++ block)).

(** ** The pipeline *)

Definition max_retries : nat := 3.

(** ['503' in err_msg or 'UNAVAILABLE' in err_msg] *)
Definition retryable (err_msg : pystr) : bool :=
  contains (lit "503") err_msg || contains (lit "UNAVAILABLE") err_msg.

(** How the [for] loop is left: by [break] or exhaustion, with the current
    [answer], or by the [return] of the permanent-error branch. *)
Inductive loop_exit := LoopEnd (answer : option pystr) | LoopReturn.

Definition retry_message (attempt : nat) : pystr :=
  lit "Serveur occup" ++ [e_acute] ++ lit ", retry " ++ str_of_nat attempt
  ++ lit "/" ++ str_of_nat max_retries ++ lit "...".

Definition no_answer_message : pystr :=
  lit "Aucune r" ++ [e_acute] ++ lit "ponse obtenue de Gemini.".

Definition copied_message : pystr :=
  lit "R" ++ [e_acute] ++ lit "ponse copi" ++ [e_acute]
  ++ lit "e dans le presse-papiers.".

Section Pipeline.
Variable w : world.

Definition logger (lvl : level) (msg : pystr) : M unit := emit (Log lvl msg).

Definition notify (title message : pystr) : M unit :=
  emit (Notify title message (notify_toast w title message)).

Definition sleep (secs : Z) : M unit := emit (Sleep secs).

Definition grab : M (option exception) :=
  emit Grab ;; ret (grab_error w).

Definition encode : M (option exception) :=
  emit Encode ;; ret (encode_error w).

Definition generate (attempt : nat) : M (pystr + exception) :=
  emit (Generate attempt) ;; ret (generate_content w attempt).

Definition copy (text : pystr) : M (option exception) :=
  emit (Copy text) ;;
  match copy_error w text with
  | Some x => ret (Some x)
  | None => set_clipboard text ;; ret None
  end.

(** [for attempt in range(1, max_retries + 1)], over the attempts left. *)
Fixpoint analyse_loop (attempts : list nat) (delay : Z)
         (answer : option pystr) : M loop_exit :=
  match attempts with
  | [] => ret (LoopEnd answer)
  | attempt :: rest =>
      let except (x : exception) (answer : option pystr) : M loop_exit :=
        let err_msg := exc_str x in
        logger WARNING (lit "Erreur Gemini (tentative " ++ str_of_nat attempt
                        ++ lit "): " ++ err_msg) ;;
        if retryable err_msg then
          notify (lit "Gemini Scanner") (retry_message attempt) ;;
          sleep delay ;;
          analyse_loop rest (delay * 2) answer
        else
          notify (lit "Erreur Gemini") err_msg ;;
          ret LoopReturn
      in
      r <- generate attempt ;;
      match r with
      | inr x => except x answer
      | inl text =>
          let answer := strip text in
          c <- copy answer ;;
          match c with
          | Some x => except x (Some answer)
          | None =>
              logger INFO (lit "R" ++ [e_acute] ++ lit "ponse Gemini re"
                           ++ [c_cedilla] ++ lit "ue ("
                           ++ str_of_nat (length answer) ++ lit " caract"
                           ++ [e_grave] ++ lit "res)") ;;
              ret (LoopEnd (Some answer))
          end
      end
  end.

Definition capture_et_analyse : M outcome :=
  logger INFO (lit "D" ++ [e_acute] ++ lit "but capture_et_analyse") ;;
  notify (lit "Gemini Scanner") (lit "Analyse en cours (capture auto)...") ;;
  g <- grab ;;
  match g with
  | Some x =>
      logger ERROR (lit "Erreur capture " ++ [e_acute] ++ lit "cran: "
                    ++ exc_str x) ;;
      notify (lit "Erreur capture") (exc_str x) ;;
      ret Failed
  | None =>
      logger INFO (lit "Capture " ++ [e_acute] ++ lit "cran r" ++ [e_acute]
                   ++ lit "ussie") ;;
      enc <- encode ;;
      match enc with
      | Some x => ret (Raised x)
      | None =>
          logger INFO (lit "Image convertie en m" ++ [e_acute]
                       ++ lit "moire") ;;
          l <- analyse_loop (seq 1 max_retries) 2 None ;;
          match l with
          | LoopReturn => ret Failed
          | LoopEnd answer =>
              match answer with
              | Some ((_ :: _) as answer) =>
                  c <- copy answer ;;
                  match c with
                  | Some x => ret (Raised x)
                  | None =>
                      notify (lit "Gemini Scanner") answer ;;
                      sleep 2 ;;
                      notify (lit "Gemini Scanner") copied_message ;;
                      ret Succeeded
                  end
              | _ =>                          (* [if not answer] *)
                  notify (lit "Erreur") no_answer_message ;;
                  logger ERROR (lit "Aucune r" ++ [e_acute]
                                ++ lit "ponse Gemini apr" ++ [e_grave]
                                ++ lit "s plusieurs tentatives.") ;;
                  ret Failed
              end
          end
      end
  end.

Definition log_gemini_response (response : pystr) : M unit :=
  match open_error w with
  | None =>
      append_responses_log ([newline] ++ lit "[" ++ strftime w ++ lit "] "
                            ++ response ++ [newline]) ;;
      logger INFO (lit "R" ++ [e_acute] ++ lit "ponse enregistr" ++ [e_acute]
                   ++ lit "e dans gemini_responses.log")
  | Some x =>
      logger ERROR (lit "Erreur log r" ++ [e_acute] ++ lit "ponse: "
                    ++ exc_str x)
  end.
End Pipeline.

(** ** Reading a trace *)

Definition generates : list event -> list nat :=
  flat_map (fun ev => match ev with Generate a => [a] | _ => [] end).

Definition copies : list event -> list pystr :=
  flat_map (fun ev => match ev with Copy t => [t] | _ => [] end).

Definition sleeps : list event -> list Z :=
  flat_map (fun ev => match ev with Sleep d => [d] | _ => [] end).

Definition grabs (evs : list event) : nat :=
  length (filter (fun ev => match ev with Grab => true | _ => false end) evs).

(** The calls of [notify_toast]: title and message. *)
Definition notifications : list event -> list (pystr * pystr) :=
  flat_map (fun ev => match ev with Notify t m _ => [(t, m)] | _ => [] end).

(** [ceil(n / d)] on naturals. *)
Definition ceil_div (n d : nat) : nat := (n + (d - 1)) / d.

(** ** Vocabulary of the statements *)

(** Attempt [attempt] on Gemini raises, and line 127 takes the error for a
    busy server. *)
Definition retryable_failure (w : world) (attempt : nat) : bool :=
  match generate_content w attempt with
  | inr x => retryable (exc_str x)
  | inl _ => false
  end.

(** [evs] ends with [suffix]. *)
Definition ends_with (evs suffix : list event) : Prop :=
  exists before, evs = before ++ suffix.

Definition gemini_scanner : pystr := lit "Gemini Scanner".

Definition start_message : pystr := lit "Analyse en cours (capture auto)...".

(** A computation that leaves gemini_responses.log as it found it. *)
Definition keeps_responses_log {A : Type} (m : M A) : Prop :=
  forall s, responses_log (after (m s)) = responses_log s.

(** The record of line 126. *)
Definition attempt_warning (attempt : nat) (x : exception) : event :=
  Log WARNING (lit "Erreur Gemini (tentative " ++ str_of_nat attempt
               ++ lit "): " ++ exc_str x).

(** ** Scenarios *)

(** A world where every collaborator works and Gemini answers "Paris". *)
Definition paris_world : world :=
  World true (fun _ _ => None) None None (fun _ => inl (lit "Paris"))
        (fun _ => None) (lit "2025-01-01 12:00:00") None.

(** 301 characters: a space, then 300 letters. *)
Definition padded_message : pystr := lit " " ++ repeat 97%N 300.

Definition busy : exception :=
  Exc (lit "ServiceUnavailable") (lit "503 UNAVAILABLE: the model is overloaded").

Definition invalid_key : exception :=
  Exc (lit "InvalidArgument") (lit "invalid API key").

Definition os_error : exception :=
  Exc (lit "OSError") (lit "screen grab failed").

(** Gemini is busy for the first [k] attempts, then answers [text]. *)
Definition busy_then (k : nat) (text : pystr) : world :=
  World true (fun _ _ => None) None None
        (fun attempt => if attempt <=? k then inr busy else inl text)
        (fun _ => None) (lit "2025-01-01 12:00:00") None.

(** winotify could not be imported. *)
Definition no_winotify : world :=
  World false (fun _ _ => None) None None (fun _ => inl (lit "Paris"))
        (fun _ => None) (lit "2025-01-01 12:00:00") None.

(** Gemini is busy at every attempt. *)
Definition always_busy : world :=
  World true (fun _ _ => None) None None (fun _ => inr busy)
        (fun _ => None) (lit "2025-01-01 12:00:00") None.

(** Gemini rejects the API key. *)
Definition rejected_key : world :=
  World true (fun _ _ => None) None None (fun _ => inr invalid_key)
        (fun _ => None) (lit "2025-01-01 12:00:00") None.

(** The screen cannot be grabbed. *)
Definition no_display : world :=
  World true (fun _ _ => None) (Some os_error) None
        (fun _ => inl (lit "Paris"))
        (fun _ => None) (lit "2025-01-01 12:00:00") None.

(** The screenshot cannot be written as PNG. *)
Definition broken_encoder : world :=
  World true (fun _ _ => None) None
        (Some (Exc (lit "OSError") (lit "encoder error -2")))
        (fun _ => inl (lit "Paris"))
        (fun _ => None) (lit "2025-01-01 12:00:00") None.

Definition empty_state : state := State [] [].

(** ** Further readings of a notifier call *)

(** The titles of the toasts handed to winotify, in order. *)
Fixpoint titles (evs : list toast_event) : list pystr :=
  match evs with
  | [] => []
  | TShow title _ :: evs' => title :: titles evs'
  | _ :: evs' => titles evs'
  end.

(** The pauses a call makes. *)
Fixpoint pauses (evs : list toast_event) : list Q :=
  match evs with
  | [] => []
  | TSleep secs :: evs' => secs :: pauses evs'
  | _ :: evs' => pauses evs'
  end.

(** The records a call sends to [logger]. *)
Fixpoint records (evs : list toast_event) : list (level * pystr) :=
  match evs with
  | [] => []
  | TLog lvl msg :: evs' => (lvl, msg) :: records evs'
  | _ :: evs' => records evs'
  end.

(** The suffix that part [i] of [n] adds to the title. *)
Definition part_suffix (i n : nat) : pystr :=
  lit " (" ++ str_of_nat i ++ lit "/" ++ str_of_nat n ++ lit ")".

(** A toast channel that refuses every second part. *)
Definition flaky_toasts : world :=
  World true
        (fun title _ =>
           if contains (lit "2/") title
           then Some (Exc (lit "RuntimeError") (lit "toast refused"))
           else None)
        None None (fun _ => inl (lit "Paris"))
        (fun _ => None) (lit "2025-01-01 12:00:00") None.

(** 650 letters: three parts. *)
Definition long_message : pystr := repeat 97%N 650.

(** ** Further vocabulary of the pipeline *)

(** The record of line 122. *)
Definition answer_record (answer : pystr) : event :=
  Log INFO (lit "R" ++ [e_acute] ++ lit "ponse Gemini re" ++ [c_cedilla]
            ++ lit "ue (" ++ str_of_nat (length answer) ++ lit " caract"
            ++ [e_grave] ++ lit "res)").

(** What a run does before the retry loop when the grab and the encoding
    succeed. *)
Definition run_prefix (w : world) : list event :=
  [Log INFO (lit "D" ++ [e_acute] ++ lit "but capture_et_analyse");
   Notify gemini_scanner start_message
          (notify_toast w gemini_scanner start_message);
   Grab;
   Log INFO (lit "Capture " ++ [e_acute] ++ lit "cran r" ++ [e_acute]
             ++ lit "ussie");
   Encode;
   Log INFO (lit "Image convertie en m" ++ [e_acute] ++ lit "moire")].

(** The end of a run on the success path. *)
Definition success_suffix (w : world) (answer : pystr) : list event :=
  [Copy answer;
   Notify gemini_scanner answer (notify_toast w gemini_scanner answer);
   Sleep 2;
   Notify gemini_scanner copied_message
          (notify_toast w gemini_scanner copied_message)].

(** The end of a run that has no answer after the loop. *)
Definition no_answer_suffix (w : world) : list event :=
  [Notify (lit "Erreur") no_answer_message
          (notify_toast w (lit "Erreur") no_answer_message);
   Log ERROR (lit "Aucune r" ++ [e_acute] ++ lit "ponse Gemini apr"
              ++ [e_grave] ++ lit "s plusieurs tentatives.")].

(** Attempt [attempt] of this run got the reply [text] from Gemini. *)
Definition replied (w : world) (attempt : nat) (text : pystr) : Prop :=
  (1 <= attempt <= max_retries)%nat /\ generate_content w attempt = inl text.

(** The clipboard refuses every write. *)
Definition locked_clipboard : world :=
  World true (fun _ _ => None) None None (fun _ => inl (lit "Paris"))
        (fun _ => Some (Exc (lit "PyperclipException")
                            (lit "could not open the clipboard")))
        (lit "2025-01-01 12:00:00") None.

(** Gemini raises an exception that has no text. *)
Definition silent_error : world :=
  World true (fun _ _ => None) None None
        (fun _ => inr (Exc (lit "Exception") []))
        (fun _ => None) (lit "2025-01-01 12:00:00") None.

(** ** The response log's blocks *)

(** The block that line 156 writes for [response] at the time of [w]. *)
Definition response_block (w : world) (response : pystr) : pystr :=
  [newline] ++ lit "[" ++ strftime w ++ lit "] " ++ response ++ [newline].

(** ** Start-up configuration

    [CAPTURE_BBOX = tuple(map(int, os.getenv("CAPTURE_BBOX", "").split(",")))] *)

Definition comma : pychar := 44%N.

(** [s.split(sep)] for a separator of one character. *)
Fixpoint split_on (sep : pychar) (s : pystr) : list pystr :=
  match s with
  | [] => [[]]
  | c :: s' =>
      if (c =? sep)%N then [] :: split_on sep s'
      else match split_on sep s' with
           | field :: fields => (c :: field) :: fields
           | [] => [[c]]
           end
  end.

(** [os.getenv(name, default)] over the process environment. *)
Definition getenv (environ : pystr -> option pystr) (name default : pystr)
  : pystr :=
  match environ name with
  | Some value => value
  | None => default
  end.

Section Configuration.
(** Python's [int] on a [str]; [None] is a ValueError. *)
Variable py_int : pystr -> option Z.
Variable environ : pystr -> option pystr.

(** [tuple(map(int, fields))]: the first field that [int] rejects raises. *)
Fixpoint map_int (fields : list pystr) : option (list Z) :=
  match fields with
  | [] => Some []
  | field :: fields' =>
      match py_int field with
      | None => None
      | Some n =>
          match map_int fields' with
          | None => None
          | Some ns => Some (n :: ns)
          end
      end
  end.

Definition CAPTURE_BBOX : option (list Z) :=
  map_int (split_on comma (getenv environ (lit "CAPTURE_BBOX") [])).
End Configuration.

(** How many commas a text has. *)
Definition commas (s : pystr) : nat := count_occ N.eq_dec s comma.

(** For the examples: [int] on unsigned ASCII numerals. *)
Fixpoint ascii_digits (acc : Z) (s : pystr) : option Z :=
  match s with
  | [] => Some acc
  | c :: s' =>
      if ((48 <=? c) && (c <=? 57))%N
      then ascii_digits (acc * 10 + Z.of_N (c - 48)) s'
      else None
  end.

Definition ascii_int (s : pystr) : option Z :=
  match s with
  | [] => None
  | _ :: _ => ascii_digits 0 s
  end.

(** A process environment that sets one variable. *)
Definition setenv (name value : pystr) : pystr -> option pystr :=
  fun key => if list_eq_dec N.eq_dec key name then Some value else None.

(** ** What a run shows *)

(** The toasts a notifier call hands to winotify: title and message. *)
Fixpoint toast_pairs (evs : list toast_event) : list (pystr * pystr) :=
  match evs with
  | [] => []
  | TShow title msg :: evs' => (title, msg) :: toast_pairs evs'
  | _ :: evs' => toast_pairs evs'
  end.

(** All that the notifier calls of a run do, in order. *)
Definition notifier_effects (evs : list event) : list toast_event :=
  flat_map (fun ev => match ev with
                      | Notify _ _ effects => effects
                      | _ => []
                      end) evs.

(** The toasts handed to winotify during a run, in order. *)
Definition toasts (evs : list event) : list (pystr * pystr) :=
  toast_pairs (notifier_effects evs).

(** The notifier calls of a run, each with what it did. *)
Definition notices (evs : list event)
  : list (pystr * pystr * list toast_event) :=
  flat_map (fun ev => match ev with
                      | Notify title message effects =>
                          [(title, message, effects)]
                      | _ => []
                      end) evs.


(** One toast under the bare title: the toast handed to winotify, the
    record that follows (INFO when it was shown, ERROR with the text of the
    exception when winotify raised) and the pause. *)
Definition one_toast (w : world) (title message : pystr)
  : list toast_event :=
  [TShow title message;
   TLog (match show_error w title message with
         | None => INFO
         | Some _ => ERROR
         end)
        (match show_error w title message with
         | None => lit "Notification affich" ++ [e_acute] ++ lit "e: "
                   ++ title ++ lit " (part 1)"
         | Some x => lit "Erreur notification: " ++ exc_str x
         end);
   TSleep (3 # 10)].

(** Without winotify: one record with the first 256 characters. *)
Definition fallback_record (title message : pystr) : list toast_event :=
  [TLog INFO (lit "[Notification] " ++ title ++ lit ": "
              ++ firstn 256 message)].

(** What a notifier call with [message] comes to. With winotify, the toasts
    handed over carry the stripped message in ceil(len / 300) parts, in
    order, and a stripped message of 1 to 300 characters is exactly one
    toast under the bare title; without winotify there is no toast and one
    record. *)
Definition delivers (w : world) (title message : pystr)
           (effects : list toast_event) : Prop :=
  if USE_WINOTIFY w then
    length (shown effects) = ceil_div (length (strip message)) 300 /\
    concat (shown effects) = strip message /\
    ((1 <= length (strip message) <= 300)%nat ->
     effects = one_toast w title (strip message))
  else effects = fallback_record title message.

(** Attempt [attempt] ended in the exception [x]: Gemini raised it, or the
    clipboard did when the reply was written to it. *)
Definition raised_at (w : world) (attempt : nat) (x : exception) : Prop :=
  generate_content w attempt = inr x \/
  exists text, generate_content w attempt = inl text
               /\ copy_error w (strip text) = Some x.

(** Gemini is busy at every attempt and winotify is missing. *)
Definition busy_no_winotify : world :=
  World false (fun _ _ => None) None None (fun _ => inr busy)
        (fun _ => None) (lit "2025-01-01 12:00:00") None.

(** Gemini is busy twice, then answers "42"; winotify is missing. *)
Definition busy_twice_no_winotify : world :=
  World false (fun _ _ => None) None None
        (fun attempt => if attempt <=? 2 then inr busy else inl (lit "42"))
        (fun _ => None) (lit "2025-01-01 12:00:00") None.

(** Gemini is busy twice, then answers "42", but the clipboard is in use
    and says so in words that line 127 takes for a busy server. *)
Definition busy_clipboard : world :=
  World true (fun _ _ => None) None None
        (fun attempt => if attempt <=? 2 then inr busy else inl (lit "42"))
        (fun _ => Some (Exc (lit "PyperclipException")
                            (lit "clipboard UNAVAILABLE")))
        (lit "2025-01-01 12:00:00") None.

(** Gemini rejects the request with a text of 650 characters. *)
Definition long_error : world :=
  World true (fun _ _ => None) None None
        (fun _ => inr (Exc (lit "InvalidArgument") long_message))
        (fun _ => None) (lit "2025-01-01 12:00:00") None.

(** The screen cannot be grabbed, and the exception has no text. *)
Definition blank_grab_error : world :=
  World true (fun _ _ => None) (Some (Exc (lit "OSError") [])) None
        (fun _ => inl (lit "Paris"))
        (fun _ => None) (lit "2025-01-01 12:00:00") None.

(** Gemini answers with two spaces and the clipboard refuses every write. *)
Definition blank_reply_locked : world :=
  World true (fun _ _ => None) None None (fun _ => inl (lit "  "))
        (fun _ => Some (Exc (lit "PyperclipException")
                            (lit "could not open the clipboard")))
        (lit "2025-01-01 12:00:00") None.

(** A clipboard that holds "old". *)
Definition old_clipboard : state := State (lit "old") [].

(** ** Strings *)

Lemma startswith_spec (p s : pystr) :
  startswith p s = true <-> exists r, s = p ++ r.
Proof.
  revert s; induction p as [|a p IH]; intros s; simpl.
  - split; [intros _; now exists s | reflexivity].
  - destruct s as [|b s].
    + split; [discriminate | intros [r Hr]; discriminate].
    + rewrite andb_true_iff, N.eqb_eq, IH. split.
      * intros [-> [r ->]]. now exists r.
      * intros [r Hr]. injection Hr as -> ->. split; [reflexivity | now exists r].
Qed.

Lemma contains_spec (p s : pystr) :
  contains p s = true <-> substring p s.
Proof.
  unfold substring. induction s as [|c s IH].
  - cbn [contains]. rewrite orb_false_r, startswith_spec. split.
    + intros [r Hr]. now exists [], r.
    + intros [l [r Hr]]. symmetry in Hr.
      apply app_eq_nil in Hr as [-> Hr]. apply app_eq_nil in Hr as [-> ->].
      now exists [].
  - cbn [contains]. rewrite orb_true_iff, startswith_spec, IH. split.
    + intros [[r Hr] | [l [r Hr]]].
      * now exists [], r.
      * exists (c :: l), r. now rewrite Hr.
    + intros [[|c' l] [r Hr]].
      * left. now exists r.
      * right. injection Hr as _ Hr. now exists l, r.
Qed.

Lemma retryable_spec (err_msg : pystr) :
  retryable err_msg = true <->
  substring (lit "503") err_msg \/ substring (lit "UNAVAILABLE") err_msg.
Proof.
  unfold retryable. now rewrite orb_true_iff, !contains_spec.
Qed.

(** [lstrip] drops a prefix, and what it leaves does not start with white
    space. *)
Lemma lstrip_suffix (s : pystr) : exists spaces, s = spaces ++ lstrip s.
Proof.
  induction s as [|c s [spaces IH]]; [now exists []|].
  cbn [lstrip]. destruct (isspace c).
  - exists (c :: spaces). cbn [app]. now rewrite <- IH.
  - now exists [].
Qed.

Lemma lstrip_head (s : pystr) (c : pychar) (t : pystr) :
  lstrip s = c :: t -> isspace c = false.
Proof.
  induction s as [|d s IH]; [discriminate|].
  cbn [lstrip]. destruct (isspace d) eqn:Hd; [exact IH|].
  intros H. injection H as -> _. exact Hd.
Qed.

Lemma lstrip_idempotent (s : pystr) : lstrip (lstrip s) = lstrip s.
Proof.
  destruct (lstrip s) as [|c t] eqn:H; [reflexivity|].
  cbn [lstrip]. now rewrite (lstrip_head s H).
Qed.

Lemma rstrip_prefix (s : pystr) : exists spaces, s = rstrip s ++ spaces.
Proof.
  unfold rstrip. destruct (lstrip_suffix (rev s)) as [spaces H].
  exists (rev spaces). now rewrite <- rev_app_distr, <- H, rev_involutive.
Qed.

(** Stripping a stripped text changes nothing. *)
Lemma strip_idempotent (s : pystr) : strip (strip s) = strip s.
Proof.
  unfold strip.
  assert (Hleft : lstrip (rstrip (lstrip s)) = rstrip (lstrip s)).
  { destruct (rstrip_prefix (lstrip s)) as [spaces H].
    destruct (rstrip (lstrip s)) as [|c t]; [reflexivity|].
    cbn [lstrip]. now rewrite (lstrip_head s H). }
  rewrite Hleft. unfold rstrip.
  now rewrite rev_involutive, lstrip_idempotent.
Qed.

(** ** Chunking *)

Lemma split_parts_cons (c : pychar) (text : pystr) :
  split_parts (c :: text) =
  firstn max_len (c :: text) :: split_parts (skipn max_len (c :: text)).
Proof. now simp split_parts. Qed.

(** Induction along the iterations of the [while] loop. *)
Lemma split_parts_ind (P : pystr -> list pystr -> Prop) :
  P [] [] ->
  (forall c text,
      let rest := skipn max_len (c :: text) in
      P rest (split_parts rest) ->
      P (c :: text) (firstn max_len (c :: text) :: split_parts rest)) ->
  forall text, P text (split_parts text).
Proof.
  intros Hnil Hcons text.
  induction text as [text IH] using (induction_ltof1 _ (@length pychar)).
  destruct text as [|c text].
  - now simp split_parts.
  - rewrite split_parts_cons. apply Hcons, IH.
    unfold ltof. rewrite length_skipn. unfold max_len. cbn [length]. lia.
Qed.

Lemma split_parts_concat (text : pystr) :
  concat (split_parts text) = text.
Proof.
  apply split_parts_ind with (P := fun t ps => concat ps = t).
  - reflexivity.
  - intros c t rest IH. cbn [concat]. rewrite IH. apply firstn_skipn.
Qed.

Lemma split_parts_bounded (text : pystr) :
  Forall (fun part => 1 <= length part <= max_len)%nat (split_parts text).
Proof.
  apply split_parts_ind with (P := fun _ ps =>
    Forall (fun part => 1 <= length part <= max_len)%nat ps).
  - constructor.
  - intros c t rest IH. constructor; [|exact IH].
    rewrite length_firstn. unfold max_len. cbn [length]. lia.
Qed.

Lemma split_parts_length (text : pystr) :
  length (split_parts text) = ceil_div (length text) max_len.
Proof.
  unfold ceil_div.
  apply split_parts_ind with (P := fun t ps =>
    length ps = ((length t + (max_len - 1)) / max_len)%nat).
  - reflexivity.
  - intros c t rest IH. cbn [length] in *. rewrite IH. unfold rest.
    rewrite length_skipn. cbn [length]. unfold max_len.
    destruct (Nat.le_gt_cases (S (length t)) 300) as [Hle | Hgt].
    + replace (S (length t) - 300)%nat with 0%nat by lia.
      change ((0 + (300 - 1)) / 300)%nat with 0%nat.
      apply Nat.div_unique with (r := length t); lia.
    + replace (S (length t) + (300 - 1))%nat
        with ((S (length t) - 300 + (300 - 1)) + 1 * 300)%nat by lia.
      rewrite Nat.div_add by lia. now rewrite Nat.add_1_r.
Qed.

(** ** The notifier's chunks *)

Lemma shown_show_parts (w : world) (title : pystr) (total idx : nat)
      (parts : list pystr) :
  shown (show_parts w title total idx parts) = parts.
Proof.
  revert idx; induction parts as [|part rest IH]; intros idx.
  - reflexivity.
  - cbn [show_parts shown].
    destruct (show_error w _ part); cbn [shown]; now rewrite IH.
Qed.

Lemma shown_notify_toast (w : world) (title message : pystr) :
  shown (notify_toast w title message) =
  if USE_WINOTIFY w then split_parts (strip message) else [].
Proof.
  unfold notify_toast. destruct (USE_WINOTIFY w).
  - apply shown_show_parts.
  - reflexivity.
Qed.

(** C2 (as amended). With the toast channel available, [notify_toast] cuts
    the message stripped of its leading and trailing whitespace into chunks
    of 1 to 300 characters; there are ceil(len(message.strip()) / 300) of
    them, and in delivery order they concatenate to [message.strip()]. *)
Theorem notify_toast_chunks (w : world) (title message : pystr) :
  USE_WINOTIFY w = true ->
  let parts := shown (notify_toast w title message) in
  Forall (fun part => 1 <= length part <= 300)%nat parts /\
  length parts = ceil_div (length (strip message)) 300 /\
  concat parts = strip message.
Proof.
  intros Hw parts. subst parts. rewrite shown_notify_toast, Hw.
  split; [|split].
  - apply split_parts_bounded.
  - apply split_parts_length.
  - apply split_parts_concat.
Qed.

(** Without the toast channel nothing is chunked: one log record carries
    the first 256 characters of the message as it was passed. *)
Lemma notify_toast_fallback (w : world) (title message : pystr) :
  USE_WINOTIFY w = false ->
  notify_toast w title message =
  [TLog INFO (lit "[Notification] " ++ title ++ lit ": "
              ++ firstn 256 message)].
Proof. intros Hw. unfold notify_toast. now rewrite Hw. Qed.

Lemma notify_toast_chunks_witness :
  USE_WINOTIFY paris_world = true /\
  (let parts := shown (notify_toast paris_world (lit "Gemini Scanner")
                                    padded_message) in
   Forall (fun part => 1 <= length part <= 300)%nat parts /\
   length parts = ceil_div (length (strip padded_message)) 300 /\
   concat parts = strip padded_message).
Proof.
  split; [reflexivity|].
  apply (notify_toast_chunks paris_world (lit "Gemini Scanner") padded_message).
  reflexivity.
Defined.

(** C2 (as stated) fails: a 301-character message that starts with a space
    is delivered as one chunk, not ceil(301 / 300) = 2, and the chunk is not
    the message; and when winotify is missing no chunk is delivered. *)
Lemma notify_toast_padded_counterexample :
  (300 < length padded_message)%nat /\
  shown (notify_toast paris_world (lit "Gemini Scanner") padded_message)
  = [repeat 97%N 300] /\
  length (shown (notify_toast paris_world (lit "Gemini Scanner")
                              padded_message))
  <> ceil_div (length padded_message) 300 /\
  concat (shown (notify_toast paris_world (lit "Gemini Scanner")
                              padded_message))
  <> padded_message /\
  shown (notify_toast no_winotify (lit "Gemini Scanner") padded_message)
  = [].
Proof.
  split; [vm_compute; lia|]. split; [now vm_compute|].
  split; [|split]; [| |reflexivity]; intros H; vm_compute in H;
    discriminate H.
Qed.

(** ** Running the pipeline *)

(** Unfold the run as far as the oracle's answers are known. *)
Ltac run_with tac :=
  repeat (cbv beta iota zeta
              delta [capture_et_analyse analyse_loop log_gemini_response
                     bind ret emit logger notify sleep grab encode generate
                     copy set_clipboard append_responses_log
                     value events after clipboard responses_log
                     seq max_retries];
          cbn [app];
          try tac;
          try match goal with
              | H : _ = _ |- _ => progress rewrite H
              end).

Ltac run := run_with idtac.

Lemma ends_with_here (evs : list event) : ends_with evs evs.
Proof. now exists []. Qed.

Lemma ends_with_later (ev : event) (evs suffix : list event) :
  ends_with evs suffix -> ends_with (ev :: evs) suffix.
Proof. intros [before ->]. now exists (ev :: before). Qed.

Ltac find_suffix :=
  repeat first [apply ends_with_here | apply ends_with_later].

(** Name the exception behind a retryable failure. *)
Ltac name_failure H x Hgen Hretry :=
  unfold retryable_failure in H;
  match type of H with
  | context [generate_content ?w ?a] =>
      destruct (generate_content w a) as [? | x] eqn:Hgen;
      [discriminate H | rename H into Hretry]
  end.

(** C3 (as amended). After at most two retryable failures, an attempt that
    returns a text which is not empty once stripped makes the run end in
    Succeeded, provided the clipboard accepts the answer: the clipboard
    holds the stripped answer, the notifier is called with the whole answer,
    then the run sleeps 2 and the notifier is called with the "copied"
    message, and nothing follows. *)
Theorem answer_within_three_attempts
        (w : world) (s : state) (k : nat) (text : pystr) :
  grab_error w = None ->
  encode_error w = None ->
  (k < max_retries)%nat ->
  (forall attempt, (1 <= attempt <= k)%nat ->
                   retryable_failure w attempt = true) ->
  generate_content w (S k) = inl text ->
  strip text <> [] ->
  copy_error w (strip text) = None ->
  let r := capture_et_analyse w s in
  let answer := strip text in
  value r = Succeeded /\
  clipboard (after r) = answer /\
  generates (events r) = seq 1 (S k) /\
  copies (events r) = [answer; answer] /\
  notifications (events r)
  = (gemini_scanner, start_message)
    :: map (fun attempt => (gemini_scanner, retry_message attempt)) (seq 1 k)
    ++ [(gemini_scanner, answer); (gemini_scanner, copied_message)] /\
  ends_with (events r)
            [Copy answer;
             Notify gemini_scanner answer
                    (notify_toast w gemini_scanner answer);
             Sleep 2;
             Notify gemini_scanner copied_message
                    (notify_toast w gemini_scanner copied_message)] /\
  (USE_WINOTIFY w = true ->
   concat (shown (notify_toast w gemini_scanner answer)) = answer).
Proof.
  intros Hgrab Henc Hk Hbusy Hgen Hanswer Hcopy r answer. subst r answer.
  unfold max_retries in Hk.
  assert (Hwhole : USE_WINOTIFY w = true ->
                   concat (shown (notify_toast w gemini_scanner (strip text)))
                   = strip text).
  { intros Hw. rewrite shown_notify_toast, Hw, split_parts_concat.
    apply strip_idempotent. }
  revert Hwhole.
  destruct (strip text) as [|c answer] eqn:Hstrip; [contradiction|].
  clear Hanswer. intros Hwhole.
  destruct k as [|[|[|k]]]; [| | |lia].
  - clear Hbusy. run. repeat split; [find_suffix | exact Hwhole].
  - pose proof (Hbusy 1%nat ltac:(lia)) as H1. clear Hbusy.
    name_failure H1 x1 G1 R1. run.
    repeat split; [find_suffix | exact Hwhole].
  - pose proof (Hbusy 1%nat ltac:(lia)) as H1.
    pose proof (Hbusy 2%nat ltac:(lia)) as H2. clear Hbusy.
    name_failure H1 x1 G1 R1. name_failure H2 x2 G2 R2. run.
    repeat split; [find_suffix | exact Hwhole].
Qed.

Lemma answer_within_three_attempts_witness :
  let r := capture_et_analyse (busy_then 2 (lit " 42 ")) empty_state in
  value r = Succeeded /\
  clipboard (after r) = lit "42" /\
  generates (events r) = [1; 2; 3]%nat /\
  copies (events r) = [lit "42"; lit "42"] /\
  notifications (events r)
  = [(gemini_scanner, start_message);
     (gemini_scanner, retry_message 1);
     (gemini_scanner, retry_message 2);
     (gemini_scanner, lit "42");
     (gemini_scanner, copied_message)] /\
  ends_with (events r)
            [Copy (lit "42");
             Notify gemini_scanner (lit "42")
                    (notify_toast (busy_then 2 (lit " 42 ")) gemini_scanner
                                  (lit "42"));
             Sleep 2;
             Notify gemini_scanner copied_message
                    (notify_toast (busy_then 2 (lit " 42 ")) gemini_scanner
                                  copied_message)] /\
  (USE_WINOTIFY (busy_then 2 (lit " 42 ")) = true ->
   concat (shown (notify_toast (busy_then 2 (lit " 42 ")) gemini_scanner
                               (lit "42")))
   = lit "42").
Proof.
  refine (answer_within_three_attempts (busy_then 2 (lit " 42 ")) empty_state
            (k := 2) (text := lit " 42 ") eq_refl eq_refl _ _ eq_refl _
            eq_refl).
  - unfold max_retries. lia.
  - intros attempt H.
    assert (attempt = 1 \/ attempt = 2)%nat as [-> | ->] by lia; reflexivity.
  - discriminate.
Defined.

(** C3 (as stated) fails for three retryable errors followed by a success:
    the loop makes three attempts, so the answer "42" that the fourth call
    would return is never asked for; the run ends in Failed and the
    clipboard is not written. It also fails when the successful reply is
    blank: the run ends in Failed. *)
Lemma three_failures_then_answer_counterexample :
  (retryable_failure (busy_then 3 (lit "42")) 1 = true /\
   retryable_failure (busy_then 3 (lit "42")) 2 = true /\
   retryable_failure (busy_then 3 (lit "42")) 3 = true /\
   generate_content (busy_then 3 (lit "42")) 4 = inl (lit "42") /\
   value (capture_et_analyse (busy_then 3 (lit "42")) empty_state) = Failed /\
   clipboard (after (capture_et_analyse (busy_then 3 (lit "42")) empty_state))
   <> lit "42" /\
   copies (events (capture_et_analyse (busy_then 3 (lit "42")) empty_state))
   = []) /\
  (generate_content (busy_then 0 (lit "  ")) 1 = inl (lit "  ") /\
   value (capture_et_analyse (busy_then 0 (lit "  ")) empty_state) = Failed).
Proof.
  repeat split; try reflexivity. discriminate.
Qed.

(** ** One turn of the retry loop *)

Ltac loop_step :=
  cbn [analyse_loop];
  repeat (cbv beta iota zeta
              delta [bind ret emit logger notify sleep generate copy
                     set_clipboard];
          cbn [app];
          try match goal with
              | H : _ = _ |- _ => progress rewrite H
              end).

Lemma analyse_loop_retry (w : world) (s : state) (x : exception)
      (attempt : nat) (rest : list nat) (delay : Z) (answer : option pystr) :
  generate_content w attempt = inr x ->
  retryable (exc_str x) = true ->
  analyse_loop w (attempt :: rest) delay answer s
  = let later := analyse_loop w rest (delay * 2) answer s in
    Ran (value later)
        ([Generate attempt; attempt_warning attempt x;
          Notify gemini_scanner (retry_message attempt)
                 (notify_toast w gemini_scanner (retry_message attempt));
          Sleep delay] ++ events later)
        (after later).
Proof.
  intros Hgen Hretry. loop_step.
  now destruct (analyse_loop w rest (delay * 2) answer s).
Qed.

Lemma analyse_loop_permanent (w : world) (s : state) (x : exception)
      (attempt : nat) (rest : list nat) (delay : Z) (answer : option pystr) :
  generate_content w attempt = inr x ->
  retryable (exc_str x) = false ->
  analyse_loop w (attempt :: rest) delay answer s
  = Ran LoopReturn
        [Generate attempt; attempt_warning attempt x;
         Notify (lit "Erreur Gemini") (exc_str x)
                (notify_toast w (lit "Erreur Gemini") (exc_str x))]
        s.
Proof. intros Hgen Hperm. now loop_step. Qed.

(** C9. An error raised by an attempt on Gemini is retried (retry notice,
    backoff sleep, then the rest of the loop with the delay doubled) exactly
    when its text contains "503" or "UNAVAILABLE", and it is permanent
    (error notice, then [return]) exactly when it contains neither; the
    class of the exception plays no part. *)
Theorem retried_iff_busy_text
        (w : world) (s : state) (x : exception) (attempt : nat)
        (rest : list nat) (delay : Z) (answer : option pystr) :
  generate_content w attempt = inr x ->
  let busy_text :=
    substring (lit "503") (exc_str x)
    \/ substring (lit "UNAVAILABLE") (exc_str x) in
  let r := analyse_loop w (attempt :: rest) delay answer s in
  let later := analyse_loop w rest (delay * 2) answer s in
  (busy_text <->
   r = Ran (value later)
           ([Generate attempt; attempt_warning attempt x;
             Notify gemini_scanner (retry_message attempt)
                    (notify_toast w gemini_scanner (retry_message attempt));
             Sleep delay] ++ events later)
           (after later)) /\
  (~ busy_text <->
   r = Ran LoopReturn
           [Generate attempt; attempt_warning attempt x;
            Notify (lit "Erreur Gemini") (exc_str x)
                   (notify_toast w (lit "Erreur Gemini") (exc_str x))]
           s).
Proof.
  intros Hgen busy_text r later. subst busy_text r later.
  rewrite <- retryable_spec.
  destruct (retryable (exc_str x)) eqn:Hclass.
  - rewrite (@analyse_loop_retry w s x attempt rest delay answer Hgen Hclass).
    cbn zeta. split; split; intros H.
    + reflexivity.
    + reflexivity.
    + now contradiction H.
    + discriminate H.
  - rewrite (@analyse_loop_permanent w s x attempt rest delay answer Hgen Hclass).
    split; split; intros H.
    + discriminate H.
    + discriminate H.
    + reflexivity.
    + discriminate.
Qed.

Lemma retried_iff_busy_text_witness :
  let x := Exc (lit "ValueError") (lit "got HTTP 503 from upstream") in
  let w := World true (fun _ _ => None) None None (fun _ => inr x)
                 (fun _ => None) [] None in
  let busy_text :=
    substring (lit "503") (exc_str x)
    \/ substring (lit "UNAVAILABLE") (exc_str x) in
  let r := analyse_loop w [3%nat] 8 None empty_state in
  let later := analyse_loop w [] (8 * 2) None empty_state in
  (busy_text <->
   r = Ran (value later)
           ([Generate 3; attempt_warning 3 x;
             Notify gemini_scanner (retry_message 3)
                    (notify_toast w gemini_scanner (retry_message 3));
             Sleep 8] ++ events later)
           (after later)) /\
  (~ busy_text <->
   r = Ran LoopReturn
           [Generate 3; attempt_warning 3 x;
            Notify (lit "Erreur Gemini") (exc_str x)
                   (notify_toast w (lit "Erreur Gemini") (exc_str x))]
           empty_state).
Proof.
  intros x w.
  exact (@retried_iff_busy_text w empty_state x 3%nat [] 8 None eq_refl).
Defined.

(** ** Backoff *)

(** Over any attempts that all fail as retryable, the loop sleeps the
    current delay after each failure and doubles it. *)
Lemma analyse_loop_backoff (w : world) (attempts : list nat) :
  forall (delay : Z) (answer : option pystr) (s : state),
    (forall attempt, In attempt attempts ->
                     retryable_failure w attempt = true) ->
    let r := analyse_loop w attempts delay answer s in
    value r = LoopEnd answer /\
    sleeps (events r)
    = map (fun i => delay * 2 ^ Z.of_nat i)%Z (seq 0 (length attempts)).
Proof.
  induction attempts as [|attempt rest IH]; intros delay answer s Hbusy r.
  - now subst r.
  - subst r.
    pose proof (Hbusy attempt (or_introl eq_refl)) as H.
    name_failure H x Hgen Hretry.
    rewrite (@analyse_loop_retry w s x attempt rest delay answer Hgen Hretry).
    destruct (IH (delay * 2)%Z answer s) as [Hvalue Hsleeps].
    { intros a Ha. apply Hbusy. now right. }
    cbn zeta. cbn [value events]. split; [exact Hvalue|].
    unfold sleeps, attempt_warning in *. cbn [app flat_map]. rewrite Hsleeps.
    cbn [length seq map]. rewrite <- seq_shift, map_map.
    change (2 ^ Z.of_nat 0)%Z with 1%Z. rewrite Z.mul_1_r. f_equal.
    apply map_ext. intros i. rewrite Nat2Z.inj_succ, Z.pow_succ_r by lia. lia.
Qed.

(** ** The encoding step *)

(** Whatever the world, a failure of the encoding step leaves
    [capture_et_analyse] as an exception: no error record, no notice. *)
Lemma encode_failure_raises (w : world) (s : state) (x : exception) :
  grab_error w = None ->
  encode_error w = Some x ->
  capture_et_analyse w s
  = Ran (Raised x)
        [Log INFO (lit "D" ++ [e_acute] ++ lit "but capture_et_analyse");
         Notify gemini_scanner start_message
                (notify_toast w gemini_scanner start_message);
         Grab;
         Log INFO (lit "Capture " ++ [e_acute] ++ lit "cran r" ++ [e_acute]
                   ++ lit "ussie");
         Encode]
        s.
Proof. intros Hgrab Henc. run. now destruct s. Qed.

(** C7 (the code departs from it). With an encoder that raises, the
    exception leaves [capture_et_analyse]: the run stops after the encoding
    step with no ERROR record and no notice of the failure, whereas a failed
    grab in the same run would have been logged and notified. *)
Theorem encoding_failure_escapes :
  let r := capture_et_analyse broken_encoder empty_state in
  value r = Raised (Exc (lit "OSError") (lit "encoder error -2")) /\
  events r
  = [Log INFO (lit "D" ++ [e_acute] ++ lit "but capture_et_analyse");
     Notify gemini_scanner start_message
            (notify_toast broken_encoder gemini_scanner start_message);
     Grab;
     Log INFO (lit "Capture " ++ [e_acute] ++ lit "cran r" ++ [e_acute]
               ++ lit "ussie");
     Encode] /\
  notifications (events r) = [(gemini_scanner, start_message)].
Proof.
  cbn zeta.
  rewrite (@encode_failure_raises broken_encoder empty_state
             (Exc (lit "OSError") (lit "encoder error -2")) eq_refl eq_refl).
  repeat split.
Qed.

(** ** The response log *)

Lemma keeps_ret (A : Type) (a : A) : keeps_responses_log (ret a).
Proof. now intros s. Qed.

Lemma keeps_emit (ev : event) : keeps_responses_log (emit ev).
Proof. now intros s. Qed.

Lemma keeps_set_clipboard (text : pystr) :
  keeps_responses_log (set_clipboard text).
Proof. now intros s. Qed.

Lemma keeps_bind (A B : Type) (m : M A) (k : A -> M B) :
  keeps_responses_log m ->
  (forall a, keeps_responses_log (k a)) ->
  keeps_responses_log (bind m k).
Proof.
  intros Hm Hk s. unfold bind.
  specialize (Hm s). destruct (m s) as [a evs1 s1].
  specialize (Hk a s1). destruct (k a s1) as [b evs2 s2].
  cbn [after] in *. congruence.
Qed.

Ltac keeps :=
  repeat first
    [ apply keeps_ret
    | apply keeps_emit
    | apply keeps_set_clipboard
    | apply keeps_bind; [|intros ?]
    | match goal with
      | |- keeps_responses_log (match ?c with _ => _ end) => destruct c
      | |- keeps_responses_log (if ?c then _ else _) => destruct c
      end ].

Lemma keeps_copy (w : world) (text : pystr) :
  keeps_responses_log (copy w text).
Proof. unfold copy. keeps. Qed.

Lemma keeps_analyse_loop (w : world) (attempts : list nat) :
  forall (delay : Z) (answer : option pystr),
    keeps_responses_log (analyse_loop w attempts delay answer).
Proof.
  induction attempts as [|attempt rest IH]; intros delay answer;
    cbn [analyse_loop]; unfold generate, logger, notify, sleep.
  - keeps.
  - keeps; try apply keeps_copy; keeps; apply IH.
Qed.

(** No run of the pipeline writes to gemini_responses.log. *)
Lemma capture_et_analyse_keeps_log (w : world) :
  keeps_responses_log (capture_et_analyse w).
Proof.
  unfold capture_et_analyse, grab, encode, logger, notify, sleep.
  keeps; try apply keeps_copy; try apply keeps_analyse_loop; keeps.
Qed.

(** [log_gemini_response] itself appends one time-stamped block when the
    file can be opened. *)
Lemma log_gemini_response_appends (w : world) (s : state)
      (response : pystr) :
  open_error w = None ->
  responses_log (after (log_gemini_response w response s))
  = responses_log s ++ [newline] ++ lit "[" ++ strftime w ++ lit "] "
    ++ response ++ [newline].
Proof. intros Hopen. unfold log_gemini_response. now rewrite Hopen. Qed.

(** C1 (the code departs from it). Two runs in which Gemini answers "Paris"
    both end in Succeeded, and the response log that was empty before them
    is empty after them: [capture_et_analyse] never calls
    [log_gemini_response], which would have appended a block. *)
Theorem two_answers_leave_log_empty :
  let r1 := capture_et_analyse paris_world empty_state in
  let r2 := capture_et_analyse paris_world (after r1) in
  value r1 = Succeeded /\
  value r2 = Succeeded /\
  copies (events r1) = [lit "Paris"; lit "Paris"] /\
  copies (events r2) = [lit "Paris"; lit "Paris"] /\
  responses_log (after r2) = [] /\
  responses_log (after (log_gemini_response paris_world (lit "Paris")
                                            empty_state))
  = [newline] ++ lit "[2025-01-01 12:00:00] Paris" ++ [newline].
Proof.
  cbn zeta. rewrite !capture_et_analyse_keeps_log. now repeat split.
Qed.


(** ** More on the notifier *)

Lemma split_parts_short (text : pystr) :
  (1 <= length text <= max_len)%nat -> split_parts text = [text].
Proof.
  intros Hlen. destruct text as [|c text]; [cbn in Hlen; lia|].
  rewrite split_parts_cons, firstn_all2, skipn_all2 by lia.
  now simp split_parts.
Qed.

(** X1. A message that, once stripped, has 1 to 300 characters is shown as
    one toast under the title as given (no part number), followed by one
    log record (INFO when shown, ERROR when winotify raised) and one pause
    of 0.3. *)
Theorem notify_toast_single (w : world) (title message : pystr) :
  USE_WINOTIFY w = true ->
  (1 <= length (strip message) <= 300)%nat ->
  notify_toast w title message
  = [TShow title (strip message);
     match show_error w title (strip message) with
     | None => TLog INFO (lit "Notification affich" ++ [e_acute] ++ lit "e: "
                          ++ title ++ lit " (part 1)")
     | Some x => TLog ERROR (lit "Erreur notification: " ++ exc_str x)
     end;
     TSleep (3 # 10)].
Proof.
  intros Hw Hlen. unfold notify_toast. rewrite Hw.
  rewrite split_parts_short by exact Hlen.
  cbn [show_parts length Nat.ltb Nat.leb]. now rewrite app_nil_r.
Qed.

Lemma notify_toast_single_witness :
  notify_toast paris_world gemini_scanner (lit "  Paris ")
  = [TShow gemini_scanner (strip (lit "  Paris "));
     match show_error paris_world gemini_scanner (strip (lit "  Paris ")) with
     | None => TLog INFO (lit "Notification affich" ++ [e_acute] ++ lit "e: "
                          ++ gemini_scanner ++ lit " (part 1)")
     | Some x => TLog ERROR (lit "Erreur notification: " ++ exc_str x)
     end;
     TSleep (3 # 10)].
Proof.
  refine (notify_toast_single paris_world gemini_scanner (lit "  Paris ")
            eq_refl _).
  vm_compute. split; repeat constructor.
Defined.

Lemma titles_show_parts (w : world) (title : pystr) (total : nat)
      (parts : list pystr) :
  (1 < total)%nat ->
  forall idx,
    titles (show_parts w title total idx parts)
    = map (fun i => title ++ part_suffix i total)
          (seq (idx + 1) (length parts)).
Proof.
  intros Htotal. apply Nat.ltb_lt in Htotal.
  induction parts as [|part rest IH]; intros idx; [reflexivity|].
  cbn [show_parts titles length seq map]. rewrite Htotal.
  destruct (show_error w _ part); cbn [titles];
    rewrite IH; now rewrite (Nat.add_1_r idx) at 2.
Qed.

Lemma ceil_div_more (n : nat) : (300 < n)%nat -> (1 < ceil_div n 300)%nat.
Proof.
  intros Hn. unfold ceil_div.
  apply Nat.lt_le_trans with (m := 2%nat); [lia|].
  apply Nat.div_le_lower_bound; lia.
Qed.

(** X2. A message whose stripped text is longer than 300 characters is
    shown as n = ceil(len / 300) toasts whose titles are the given title
    followed by " (1/n)", " (2/n)", ..., " (n/n)", in that order. *)
Theorem notify_toast_numbered (w : world) (title message : pystr) :
  USE_WINOTIFY w = true ->
  (300 < length (strip message))%nat ->
  let n := ceil_div (length (strip message)) 300 in
  titles (notify_toast w title message)
  = map (fun i => title ++ lit " (" ++ str_of_nat i ++ lit "/"
                  ++ str_of_nat n ++ lit ")")
        (seq 1 n).
Proof.
  intros Hw Hlen n. subst n. unfold notify_toast. rewrite Hw.
  cbn zeta. rewrite titles_show_parts.
  - now rewrite split_parts_length.
  - rewrite split_parts_length. now apply ceil_div_more.
Qed.

Lemma notify_toast_numbered_witness :
  let n := ceil_div (length (strip long_message)) 300 in
  titles (notify_toast paris_world gemini_scanner long_message)
  = map (fun i => gemini_scanner ++ lit " (" ++ str_of_nat i ++ lit "/"
                  ++ str_of_nat n ++ lit ")")
        (seq 1 n).
Proof.
  refine (notify_toast_numbered paris_world gemini_scanner long_message
            eq_refl _).
  vm_compute. repeat constructor.
Defined.

Lemma split_parts_nil (text : pystr) : split_parts text = [] -> text = [].
Proof.
  destruct text as [|c text]; [reflexivity|].
  rewrite split_parts_cons. discriminate.
Qed.

Lemma split_parts_full (text : pystr) (i : nat) :
  (S i < length (split_parts text))%nat ->
  length (nth i (split_parts text) []) = max_len.
Proof.
  revert i.
  apply split_parts_ind with (P := fun _ ps =>
    forall i, (S i < length ps)%nat -> length (nth i ps []) = max_len).
  - intros i H. cbn in H. lia.
  - intros c t rest IH [|i] Hi; cbn [nth length] in *.
    + rewrite length_firstn. cbn [length].
      destruct (split_parts rest) as [|p ps] eqn:Hrest; [cbn in Hi; lia|].
      assert (Hlen : (length rest <> 0)%nat).
      { intros H0. apply length_zero_iff_nil in H0.
        rewrite H0 in Hrest. simp split_parts in Hrest. discriminate. }
      unfold rest in Hlen. rewrite length_skipn in Hlen.
      cbn [length] in Hlen. lia.
    + apply IH. lia.
Qed.

Lemma split_parts_last (text : pystr) :
  text <> [] ->
  (length (last (split_parts text) [])
   + max_len * (length (split_parts text) - 1) = length text)%nat.
Proof.
  apply split_parts_ind with (P := fun t ps =>
    t <> [] ->
    (length (last ps []) + max_len * (length ps - 1) = length t)%nat).
  - intros H. now contradiction H.
  - intros c t rest IH _.
    destruct (split_parts rest) as [|p ps] eqn:Hrest.
    + apply split_parts_nil in Hrest.
      assert (Hlen : length rest = 0%nat) by now rewrite Hrest.
      unfold rest in Hlen. rewrite length_skipn in Hlen.
      cbn [last length Nat.sub]. rewrite length_firstn.
      cbn [length] in *. unfold max_len in *. lia.
    + assert (Hne : rest <> []).
      { intros H0. rewrite H0 in Hrest. simp split_parts in Hrest.
        discriminate. }
      specialize (IH Hne).
      change (last (firstn max_len (c :: t) :: p :: ps) [])
        with (last (p :: ps) []).
      unfold rest in IH. rewrite length_skipn in IH.
      assert (Hpos : (max_len < length (c :: t))%nat).
      { destruct (Nat.le_gt_cases (length (c :: t)) max_len) as [Hle|Hgt];
          [|exact Hgt].
        contradiction Hne. unfold rest. now apply skipn_all2. }
      cbn [length] in *. unfold max_len in *.
      assert (Harith : forall a b len : nat,
                 (a + 300 * (S b - 1) = S len - 300)%nat ->
                 (300 < S len)%nat ->
                 (a + 300 * (S (S b) - 1) = S len)%nat) by (intros; lia).
      now apply Harith.
Qed.

(** X3. The stripped message is cut greedily: every toast but the last
    carries exactly 300 characters, and the last one carries the rest. *)
Theorem notify_toast_parts_full (w : world) (title message : pystr) :
  USE_WINOTIFY w = true ->
  strip message <> [] ->
  let parts := shown (notify_toast w title message) in
  (forall i, (S i < length parts)%nat -> length (nth i parts []) = 300%nat) /\
  (length (last parts []) + 300 * (length parts - 1)
   = length (strip message))%nat.
Proof.
  intros Hw Hne parts. subst parts. rewrite shown_notify_toast, Hw. split.
  - intros i. apply split_parts_full.
  - now apply split_parts_last.
Qed.

Lemma notify_toast_parts_full_witness :
  let parts := shown (notify_toast paris_world gemini_scanner long_message) in
  (forall i, (S i < length parts)%nat -> length (nth i parts []) = 300%nat) /\
  (length (last parts []) + 300 * (length parts - 1)
   = length (strip long_message))%nat.
Proof.
  refine (notify_toast_parts_full paris_world gemini_scanner long_message
            eq_refl _).
  vm_compute. discriminate.
Defined.

Lemma pauses_show_parts (w : world) (title : pystr) (total : nat)
      (parts : list pystr) :
  forall idx,
    pauses (show_parts w title total idx parts)
    = repeat (3 # 10) (length parts) /\
    length (records (show_parts w title total idx parts)) = length parts.
Proof.
  induction parts as [|part rest IH]; intros idx; [now split|].
  cbn [show_parts pauses records length repeat].
  destruct (IH (idx + 1)%nat) as [Hp Hr].
  destruct (show_error w _ part); cbn [pauses records length];
    now rewrite Hp, Hr.
Qed.

(** X4. A toast that winotify refuses does not stop the delivery: whatever
    [show] raises, each of the n = ceil(len / 300) parts is handed to
    winotify, leaves exactly one log record and is followed by a pause of
    0.3. *)
Theorem notify_toast_keeps_going (w : world) (title message : pystr) :
  USE_WINOTIFY w = true ->
  let n := ceil_div (length (strip message)) 300 in
  let effects := notify_toast w title message in
  length (shown effects) = n /\
  pauses effects = repeat (3 # 10) n /\
  length (records effects) = n.
Proof.
  intros Hw n effects. subst n effects.
  split.
  - rewrite shown_notify_toast, Hw. apply split_parts_length.
  - unfold notify_toast. rewrite Hw. cbn zeta.
    pose proof (split_parts_length (strip message)) as Hn.
    unfold max_len in Hn. rewrite <- Hn.
    apply pauses_show_parts.
Qed.

Lemma notify_toast_keeps_going_witness :
  let n := ceil_div (length (strip long_message)) 300 in
  let effects := notify_toast flaky_toasts gemini_scanner long_message in
  length (shown effects) = n /\
  pauses effects = repeat (3 # 10) n /\
  length (records effects) = n.
Proof.
  exact (notify_toast_keeps_going flaky_toasts gemini_scanner long_message
           eq_refl).
Defined.


(** ** The retry loop in any world *)

Lemma analyse_loop_answer (w : world) (s : state) (text : pystr)
      (attempt : nat) (rest : list nat) (delay : Z) (answer : option pystr) :
  generate_content w attempt = inl text ->
  copy_error w (strip text) = None ->
  analyse_loop w (attempt :: rest) delay answer s
  = Ran (LoopEnd (Some (strip text)))
        [Generate attempt; Copy (strip text); answer_record (strip text)]
        (State (strip text) (responses_log s)).
Proof. intros Hgen Hcopy. now loop_step. Qed.

Lemma analyse_loop_copy_retry (w : world) (s : state) (text : pystr)
      (x : exception) (attempt : nat) (rest : list nat) (delay : Z)
      (answer : option pystr) :
  generate_content w attempt = inl text ->
  copy_error w (strip text) = Some x ->
  retryable (exc_str x) = true ->
  analyse_loop w (attempt :: rest) delay answer s
  = let later := analyse_loop w rest (delay * 2) (Some (strip text)) s in
    Ran (value later)
        ([Generate attempt; Copy (strip text); attempt_warning attempt x;
          Notify gemini_scanner (retry_message attempt)
                 (notify_toast w gemini_scanner (retry_message attempt));
          Sleep delay] ++ events later)
        (after later).
Proof.
  intros Hgen Hcopy Hretry. loop_step.
  now destruct (analyse_loop w rest (delay * 2) (Some (strip text)) s).
Qed.

Lemma analyse_loop_copy_permanent (w : world) (s : state) (text : pystr)
      (x : exception) (attempt : nat) (rest : list nat) (delay : Z)
      (answer : option pystr) :
  generate_content w attempt = inl text ->
  copy_error w (strip text) = Some x ->
  retryable (exc_str x) = false ->
  analyse_loop w (attempt :: rest) delay answer s
  = Ran LoopReturn
        [Generate attempt; Copy (strip text); attempt_warning attempt x;
         Notify (lit "Erreur Gemini") (exc_str x)
                (notify_toast w (lit "Erreur Gemini") (exc_str x))]
        s.
Proof. intros Hgen Hcopy Hperm. now loop_step. Qed.

(** The five ways one turn of the loop can go. *)
Ltac loop_cases w s attempt rest delay answer :=
  let text := fresh "text" in
  let x := fresh "x" in
  let Hgen := fresh "Hgen" in
  let Hcopy := fresh "Hcopy" in
  let Hclass := fresh "Hclass" in
  destruct (generate_content w attempt) as [text | x] eqn:Hgen;
  [ destruct (copy_error w (strip text)) as [x |] eqn:Hcopy;
    [ destruct (retryable (exc_str x)) eqn:Hclass;
      [ rewrite (@analyse_loop_copy_retry w s text x attempt rest delay
                   answer Hgen Hcopy Hclass)
      | rewrite (@analyse_loop_copy_permanent w s text x attempt rest delay
                   answer Hgen Hcopy Hclass) ]
    | rewrite (@analyse_loop_answer w s text attempt rest delay answer
                 Hgen Hcopy) ]
  | destruct (retryable (exc_str x)) eqn:Hclass;
    [ rewrite (@analyse_loop_retry w s x attempt rest delay answer
                 Hgen Hclass)
    | rewrite (@analyse_loop_permanent w s x attempt rest delay answer
                 Hgen Hclass) ] ].

(** The loop calls Gemini for the attempts in order and may stop early. *)
Lemma analyse_loop_generates (w : world) (attempts : list nat) :
  forall delay answer s,
  exists n,
    generates (events (analyse_loop w attempts delay answer s))
    = firstn n attempts.
Proof.
  induction attempts as [|attempt rest IH]; intros delay answer s.
  - now exists 0%nat.
  - loop_cases w s attempt rest delay answer; cbn zeta; cbn [events];
      try (now exists 1%nat).
    + destruct (IH (delay * 2)%Z (Some (strip text)) s) as [n Hn].
      exists (S n). cbn [firstn]. rewrite <- Hn. reflexivity.
    + destruct (IH (delay * 2)%Z answer s) as [n Hn].
      exists (S n). cbn [firstn]. rewrite <- Hn. reflexivity.
Qed.

(** Whatever the loop copies is the stripped text of a reply it got. *)
Lemma analyse_loop_copies (w : world) (attempts : list nat) :
  forall delay answer s t,
    In t (copies (events (analyse_loop w attempts delay answer s))) ->
    exists attempt text,
      In attempt attempts /\ generate_content w attempt = inl text
      /\ t = strip text.
Proof.
  induction attempts as [|attempt rest IH]; intros delay answer s t.
  - intros [].
  - loop_cases w s attempt rest delay answer; cbn zeta; cbn [events];
      unfold copies; cbn [flat_map app In attempt_warning answer_record];
      fold copies.
    + intros [<- | Hin].
      * exists attempt, text. now repeat split; [left|..].
      * destruct (IH _ _ _ _ Hin) as (a & text' & Ha & Hgen' & ->).
        exists a, text'. now repeat split; [right|..].
    + intros [<- | []]. exists attempt, text. now repeat split; [left|..].
    + intros [<- | []]. exists attempt, text. now repeat split; [left|..].
    + intros Hin. destruct (IH _ _ _ _ Hin) as (a & text' & Ha & Hgen' & ->).
      exists a, text'. now repeat split; [right|..].
    + intros [].
Qed.

(** The answer the loop ends with is the one it started with or the
    stripped text of a reply it got. *)
Lemma analyse_loop_answer_origin (w : world) (attempts : list nat) :
  forall delay answer s t,
    value (analyse_loop w attempts delay answer s) = LoopEnd (Some t) ->
    answer = Some t \/
    exists attempt text,
      In attempt attempts /\ generate_content w attempt = inl text
      /\ t = strip text.
Proof.
  induction attempts as [|attempt rest IH]; intros delay answer s t.
  - cbn. intros H. injection H as ->. now left.
  - loop_cases w s attempt rest delay answer; cbn zeta; cbn [value];
      intros H; try discriminate H.
    + right. destruct (IH _ _ _ _ H) as [Hsame | (a & text' & Ha & Hg & ->)].
      * injection Hsame as <-. exists attempt, text.
        now repeat split; [left|..].
      * exists a, text'. now repeat split; [right|..].
    + injection H as <-. right. exists attempt, text.
      now repeat split; [left|..].
    + destruct (IH _ _ _ _ H) as [Hsame | (a & text' & Ha & Hg & ->)].
      * now left.
      * right. exists a, text'. now repeat split; [right|..].
Qed.

(** The loop changes the state only by a clipboard write, and never grabs
    the screen. *)
Lemma analyse_loop_state (w : world) (attempts : list nat) :
  forall delay answer s,
    let r := analyse_loop w attempts delay answer s in
    (copies (events r) = [] -> after r = s) /\
    (clipboard (after r) = clipboard s
     \/ In (clipboard (after r)) (copies (events r))) /\
    grabs (events r) = 0%nat.
Proof.
  induction attempts as [|attempt rest IH]; intros delay answer s r; subst r.
  - cbn. repeat split. now left.
  - loop_cases w s attempt rest delay answer; cbn zeta;
      cbn [events after clipboard];
      unfold copies, grabs;
      cbn [flat_map app In attempt_warning answer_record filter length];
      fold copies.
    + destruct (IH (delay * 2)%Z (Some (strip text)) s) as (H1 & H2 & H3).
      repeat split; try discriminate; try exact H3.
      destruct H2 as [H2 | H2]; [now left | right; now right].
    + repeat split; try discriminate. now left.
    + repeat split; try discriminate. right; now left.
    + destruct (IH (delay * 2)%Z answer s) as (H1 & H2 & H3).
      repeat split; assumption.
    + repeat split. now left.
Qed.

(** ** A run in any world *)

(** A run whose grab and encoding succeed, told from the way the loop
    ends. *)
Lemma capture_et_analyse_after_loop (w : world) (s : state) :
  grab_error w = None ->
  encode_error w = None ->
  capture_et_analyse w s
  = let l := analyse_loop w (seq 1 max_retries) 2 None s in
    match value l with
    | LoopReturn => Ran Failed (run_prefix w ++ events l) (after l)
    | LoopEnd (Some ((_ :: _) as answer)) =>
        match copy_error w answer with
        | Some x =>
            Ran (Raised x) (run_prefix w ++ events l ++ [Copy answer])
                (after l)
        | None =>
            Ran Succeeded (run_prefix w ++ events l ++ success_suffix w answer)
                (State answer (responses_log (after l)))
        end
    | LoopEnd _ =>
        Ran Failed (run_prefix w ++ events l ++ no_answer_suffix w) (after l)
    end.
Proof.
  intros Hgrab Henc. unfold capture_et_analyse.
  cbv beta iota zeta delta [bind ret emit logger notify sleep grab encode
                            copy set_clipboard].
  rewrite Hgrab. cbv beta iota. rewrite Henc. cbv beta iota.
  destruct (analyse_loop w (seq 1 max_retries) 2 None s) as [v evs s1].
  cbn [value events after].
  destruct v as [[[|c answer]|]|];
    try destruct (copy_error w (c :: answer));
    cbn [app]; rewrite ?app_nil_r; reflexivity.
Qed.

Lemma capture_et_analyse_no_grab (w : world) (s : state) (x : exception) :
  grab_error w = Some x ->
  capture_et_analyse w s
  = Ran Failed
        [Log INFO (lit "D" ++ [e_acute] ++ lit "but capture_et_analyse");
         Notify gemini_scanner start_message
                (notify_toast w gemini_scanner start_message);
         Grab;
         Log ERROR (lit "Erreur capture " ++ [e_acute] ++ lit "cran: "
                    ++ exc_str x);
         Notify (lit "Erreur capture") (exc_str x)
                (notify_toast w (lit "Erreur capture") (exc_str x))]
        s.
Proof. intros Hgrab. run. now destruct s. Qed.

(** The three shapes of a run. *)
Ltac run_cases w s :=
  let x := fresh "x" in
  let Hgrab := fresh "Hgrab" in
  let Henc := fresh "Henc" in
  destruct (grab_error w) as [x|] eqn:Hgrab;
  [ rewrite (@capture_et_analyse_no_grab w s x Hgrab)
  | destruct (encode_error w) as [x|] eqn:Henc;
    [ rewrite (@encode_failure_raises w s x Hgrab Henc)
    | rewrite (@capture_et_analyse_after_loop w s Hgrab Henc) ] ].

Lemma generates_app (evs1 evs2 : list event) :
  generates (evs1 ++ evs2) = generates evs1 ++ generates evs2.
Proof. apply flat_map_app. Qed.

Lemma copies_app (evs1 evs2 : list event) :
  copies (evs1 ++ evs2) = copies evs1 ++ copies evs2.
Proof. apply flat_map_app. Qed.

Lemma grabs_app (evs1 evs2 : list event) :
  grabs (evs1 ++ evs2) = (grabs evs1 + grabs evs2)%nat.
Proof. unfold grabs. now rewrite filter_app, length_app. Qed.

Lemma firstn_attempts (n : nat) :
  exists m, (m <= 3)%nat /\ firstn n (seq 1 max_retries) = seq 1 m.
Proof.
  destruct n as [|[|[|n]]].
  - now exists 0%nat; split; [lia|].
  - now exists 1%nat; split; [lia|].
  - now exists 2%nat; split; [lia|].
  - exists 3%nat; split; [lia|]. cbn. now rewrite firstn_nil.
Qed.

(** X5. In no world does a run call Gemini more than three times: the calls
    of a run are the attempts 1, ..., n for some n <= 3. *)
Theorem attempts_at_most_three (w : world) (s : state) :
  exists n, (n <= 3)%nat /\
            generates (events (capture_et_analyse w s)) = seq 1 n.
Proof.
  run_cases w s; try (now exists 0%nat; split; [lia|]).
  destruct (analyse_loop_generates w (seq 1 max_retries) 2 None s)
    as [n Hn].
  destruct (firstn_attempts n) as (m & Hm & Hfirst).
  exists m. split; [exact Hm|]. rewrite <- Hfirst, <- Hn. cbn zeta.
  destruct (analyse_loop w (seq 1 max_retries) 2 None s) as [v evs s1].
  cbn [value events after].
  destruct v as [[[|c answer]|]|]; try destruct (copy_error w (c :: answer));
    cbn [events]; rewrite ?generates_app; cbn; now rewrite ?app_nil_r.
Qed.

(** X6. In every world a run grabs the screen exactly once: the capture is
    never retried, whatever happens afterwards. *)
Theorem one_grab_per_run (w : world) (s : state) :
  grabs (events (capture_et_analyse w s)) = 1%nat.
Proof.
  run_cases w s; try reflexivity.
  destruct (analyse_loop_state w (seq 1 max_retries) 2 None s)
    as (_ & _ & Hgrabs).
  cbn zeta in *.
  destruct (analyse_loop w (seq 1 max_retries) 2 None s) as [v evs s1].
  cbn [value events after] in *.
  destruct v as [[[|c answer]|]|]; try destruct (copy_error w (c :: answer));
    cbn [events]; rewrite ?grabs_app, Hgrabs; reflexivity.
Qed.

Lemma loop_reply (w : world) (t : pystr) :
  (exists attempt text,
      In attempt (seq 1 max_retries)
      /\ generate_content w attempt = inl text /\ t = strip text) ->
  exists attempt text, replied w attempt text /\ t = strip text.
Proof.
  intros (attempt & text & Hin & Hgen & Ht). exists attempt, text.
  apply in_seq in Hin. unfold replied. repeat split; try assumption; lia.
Qed.

(** Name the result of the loop of a run, with what is known of it. *)
Ltac name_loop w s v evs s1 Hcopies Horigin Hstate :=
  pose proof (analyse_loop_copies w (seq 1 max_retries) 2 None s) as Hcopies;
  pose proof (analyse_loop_answer_origin w (seq 1 max_retries) 2 None s)
    as Horigin;
  pose proof (analyse_loop_state w (seq 1 max_retries) 2 None s) as Hstate;
  cbn zeta in *;
  destruct (analyse_loop w (seq 1 max_retries) 2 None s) as [v evs s1];
  cbn [value events after] in *.

(** X7. In every world the only texts a run writes to the clipboard are
    stripped replies of Gemini from that run, and the clipboard after the
    run holds what it held before or one of them. *)
Theorem clipboard_only_gets_replies (w : world) (s : state) :
  let r := capture_et_analyse w s in
  (forall t, In t (copies (events r)) ->
             exists attempt text, replied w attempt text /\ t = strip text) /\
  (clipboard (after r) = clipboard s \/
   exists attempt text,
     replied w attempt text /\ clipboard (after r) = strip text).
Proof.
  intros r. subst r. run_cases w s.
  - split; [intros t [] | now left].
  - split; [intros t [] | now left].
  - name_loop w s v evs s1 Hcopies Horigin Hstate.
    destruct Hstate as (_ & Hclip & _).
    assert (Hclip' : clipboard s1 = clipboard s \/
                     exists attempt text,
                       replied w attempt text /\ clipboard s1 = strip text).
    { destruct Hclip as [Hclip | Hclip]; [now left|right].
      now apply loop_reply, Hcopies. }
    destruct v as [[[|c answer]|]|];
      try destruct (copy_error w (c :: answer)) eqn:Hcopy;
      cbn [events after clipboard]; rewrite ?copies_app;
      change (copies (run_prefix w)) with (@nil pystr);
      cbn [app copies flat_map success_suffix no_answer_suffix];
      rewrite ?app_nil_r;
      (split; [intros t Hin | try exact Hclip']);
      try (now apply loop_reply, Hcopies).
    + apply in_app_or in Hin as [Hin | [<- | []]];
        [now apply loop_reply, Hcopies|].
      apply loop_reply.
      destruct (Horigin _ eq_refl) as [Hnone | Hreply];
        [discriminate Hnone | exact Hreply].
    + apply in_app_or in Hin as [Hin | [<- | []]];
        [now apply loop_reply, Hcopies|].
      apply loop_reply.
      destruct (Horigin _ eq_refl) as [Hnone | Hreply];
        [discriminate Hnone | exact Hreply].
    + right. apply loop_reply.
      destruct (Horigin _ eq_refl) as [Hnone | Hreply];
        [discriminate Hnone | exact Hreply].
Qed.

(** X8. A run ends in Succeeded only with a real answer: some attempt of the
    run got a reply whose stripped text is not empty, the clipboard holds
    that stripped text, and the run ends with the clipboard write, the
    notice of the answer, the sleep of 2 and the "copied" notice. *)
Theorem succeeded_only_with_answer (w : world) (s : state) :
  value (capture_et_analyse w s) = Succeeded ->
  exists attempt text,
    replied w attempt text /\
    strip text <> [] /\
    clipboard (after (capture_et_analyse w s)) = strip text /\
    ends_with (events (capture_et_analyse w s))
              (success_suffix w (strip text)).
Proof.
  run_cases w s; try discriminate.
  name_loop w s v evs s1 Hcopies Horigin Hstate.
  destruct v as [[[|c answer]|]|];
    try destruct (copy_error w (c :: answer)) eqn:Hcopy;
    cbn [value events after clipboard]; try discriminate.
  intros _.
  destruct (Horigin _ eq_refl) as [Hnone | Hreply]; [discriminate Hnone|].
  apply loop_reply in Hreply. destruct Hreply as (attempt & text & Hrep & Ht).
  exists attempt, text. rewrite <- Ht. repeat split; try apply Hrep.
  - discriminate.
  - exists (run_prefix w ++ evs). now rewrite app_assoc.
Qed.

Lemma succeeded_only_with_answer_witness :
  exists attempt text,
    replied paris_world attempt text /\
    strip text <> [] /\
    clipboard (after (capture_et_analyse paris_world empty_state))
    = strip text /\
    ends_with (events (capture_et_analyse paris_world empty_state))
              (success_suffix paris_world (strip text)).
Proof.
  exact (succeeded_only_with_answer paris_world empty_state eq_refl).
Defined.

(** X9. When Gemini gives no reply at any attempt (every call raises,
    whatever the errors are), the run writes nothing to the clipboard,
    leaves the state as it was and does not end in Succeeded. *)
Theorem no_reply_no_clipboard (w : world) (s : state) :
  (forall attempt, exists x, generate_content w attempt = inr x) ->
  let r := capture_et_analyse w s in
  copies (events r) = [] /\ after r = s /\ value r <> Succeeded.
Proof.
  intros Hraise r. subst r.
  assert (Hnone : forall t,
             ~ exists attempt text,
                 In attempt (seq 1 max_retries)
                 /\ generate_content w attempt = inl text /\ t = strip text).
  { intros t (attempt & text & _ & Hgen & _).
    destruct (Hraise attempt) as [x Hx]. congruence. }
  run_cases w s.
  - repeat split. discriminate.
  - repeat split. discriminate.
  - name_loop w s v evs s1 Hcopies Horigin Hstate.
    destruct Hstate as (Hsame & _ & _).
    assert (Hempty : copies evs = []).
    { destruct (copies evs) as [|t ts] eqn:Hc; [reflexivity|].
      exfalso. apply (Hnone t), Hcopies. now left. }
    specialize (Hsame Hempty). subst s1.
    destruct v as [[t|]|].
    + exfalso. destruct (Horigin t eq_refl) as [Habs | Habs];
        [discriminate Habs | exact (Hnone t Habs)].
    + cbn [events after value]. rewrite !copies_app, Hempty.
      repeat split. discriminate.
    + cbn [events after value]. rewrite !copies_app, Hempty.
      repeat split. discriminate.
Qed.

Lemma no_reply_no_clipboard_witness :
  let r := capture_et_analyse rejected_key empty_state in
  copies (events r) = [] /\ after r = empty_state /\ value r <> Succeeded.
Proof.
  refine (no_reply_no_clipboard rejected_key empty_state _).
  intros attempt. exists invalid_key. reflexivity.
Defined.

(** X10. In every world a run leaves gemini_responses.log exactly as it
    found it. *)
Theorem run_never_writes_response_log (w : world) (s : state) :
  responses_log (after (capture_et_analyse w s)) = responses_log s.
Proof. apply capture_et_analyse_keeps_log. Qed.

(** X12. An exception of the clipboard write inside the loop is handled as
    if Gemini had failed: when its text is not retryable the run stops after
    one attempt and shows it under the title "Erreur Gemini"; the answer
    that Gemini gave is not shown and the clipboard is unchanged. *)
Theorem clipboard_error_blamed_on_gemini
        (w : world) (s : state) (text : pystr) (x : exception) :
  grab_error w = None ->
  encode_error w = None ->
  generate_content w 1 = inl text ->
  copy_error w (strip text) = Some x ->
  retryable (exc_str x) = false ->
  let r := capture_et_analyse w s in
  value r = Failed /\
  generates (events r) = [1%nat] /\
  copies (events r) = [strip text] /\
  after r = s /\
  notifications (events r)
  = [(gemini_scanner, start_message); (lit "Erreur Gemini", exc_str x)].
Proof.
  intros Hgrab Henc Hgen Hcopy Hperm r. subst r. run. destruct s.
  repeat split.
Qed.

Lemma clipboard_error_blamed_on_gemini_witness :
  let r := capture_et_analyse locked_clipboard empty_state in
  value r = Failed /\
  generates (events r) = [1%nat] /\
  copies (events r) = [strip (lit "Paris")] /\
  after r = empty_state /\
  notifications (events r)
  = [(gemini_scanner, start_message);
     (lit "Erreur Gemini", lit "could not open the clipboard")].
Proof.
  exact (@clipboard_error_blamed_on_gemini locked_clipboard empty_state
           (lit "Paris")
           (Exc (lit "PyperclipException")
                (lit "could not open the clipboard"))
           eq_refl eq_refl eq_refl eq_refl eq_refl).
Defined.

(** X13. In any world, an exception of the encoding step leaves
    [capture_et_analyse] as it is: Gemini is not called, the clipboard is
    not written, the state is unchanged and the only notice of the run is
    the start notice. *)
Theorem encoder_exception_leaves_run
        (w : world) (s : state) (x : exception) :
  grab_error w = None ->
  encode_error w = Some x ->
  let r := capture_et_analyse w s in
  value r = Raised x /\
  generates (events r) = [] /\
  copies (events r) = [] /\
  after r = s /\
  notifications (events r) = [(gemini_scanner, start_message)].
Proof.
  intros Hgrab Henc r. subst r.
  rewrite (@encode_failure_raises w s x Hgrab Henc). repeat split.
Qed.

Lemma encoder_exception_leaves_run_witness :
  let r := capture_et_analyse broken_encoder empty_state in
  value r = Raised (Exc (lit "OSError") (lit "encoder error -2")) /\
  generates (events r) = [] /\
  copies (events r) = [] /\
  after r = empty_state /\
  notifications (events r) = [(gemini_scanner, start_message)].
Proof.
  exact (@encoder_exception_leaves_run broken_encoder empty_state
           (Exc (lit "OSError") (lit "encoder error -2")) eq_refl eq_refl).
Defined.

(** ** Blank texts *)

Lemma lstrip_nil (s : pystr) : lstrip s = [] -> forallb isspace s = true.
Proof.
  induction s as [|c s IH]; [reflexivity|].
  cbn [lstrip forallb]. destruct (isspace c); [exact IH | discriminate].
Qed.

Lemma strip_nil (s : pystr) : strip s = [] -> forallb isspace s = true.
Proof.
  unfold strip, rstrip. intros H.
  apply (f_equal (@rev pychar)) in H. rewrite rev_involutive in H.
  cbn [rev] in H. apply lstrip_nil in H.
  assert (Hl : lstrip s = []).
  { destruct (lstrip s) as [|c t] eqn:Hhead; [reflexivity|].
    apply lstrip_head in Hhead.
    rewrite forallb_forall in H.
    assert (Hc : isspace c = true) by (apply H, in_rev; rewrite rev_involutive; now left).
    congruence. }
  now apply lstrip_nil.
Qed.

Lemma blank_has_no (p : pystr) (c : pychar) (p' s : pystr) :
  p = c :: p' -> isspace c = false ->
  forallb isspace s = true -> contains p s = false.
Proof.
  intros -> Hc Hs.
  destruct (contains (c :: p') s) eqn:Hin; [|reflexivity].
  apply contains_spec in Hin. destruct Hin as (l & r & ->).
  rewrite forallb_forall in Hs.
  assert (isspace c = true) by (apply Hs, in_or_app; right; now left).
  congruence.
Qed.

Lemma blank_not_retryable (s : pystr) : strip s = [] -> retryable s = false.
Proof.
  intros H. apply strip_nil in H. unfold retryable.
  rewrite (@blank_has_no (lit "503") 53%N (lit "03") s eq_refl eq_refl H).
  now rewrite (@blank_has_no (lit "UNAVAILABLE") 85%N (lit "NAVAILABLE") s
                 eq_refl eq_refl H).
Qed.

Lemma notify_toast_blank (w : world) (title message : pystr) :
  USE_WINOTIFY w = true -> strip message = [] ->
  notify_toast w title message = [].
Proof.
  intros Hw Hblank. unfold notify_toast. rewrite Hw, Hblank.
  now simp split_parts.
Qed.

(** X14. An exception of Gemini whose text is empty or blank is never
    retried, and with winotify available the user sees nothing of it: the
    run ends in Failed after one attempt, and its call of the notifier with
    the title "Erreur Gemini" shows no toast, logs nothing and does not
    pause. *)
Theorem blank_error_shows_nothing (w : world) (s : state) (x : exception) :
  USE_WINOTIFY w = true ->
  grab_error w = None ->
  encode_error w = None ->
  generate_content w 1 = inr x ->
  strip (exc_str x) = [] ->
  let r := capture_et_analyse w s in
  value r = Failed /\
  generates (events r) = [1%nat] /\
  ends_with (events r) [Notify (lit "Erreur Gemini") (exc_str x) []].
Proof.
  intros Hw Hgrab Henc Hgen Hblank r. subst r.
  pose proof (blank_not_retryable _ Hblank) as Hperm.
  pose proof (notify_toast_blank w (lit "Erreur Gemini") _ Hw Hblank)
    as Hsilent.
  clear Hblank Hw. run. repeat split. find_suffix.
Qed.

Lemma blank_error_shows_nothing_witness :
  let r := capture_et_analyse silent_error empty_state in
  value r = Failed /\
  generates (events r) = [1%nat] /\
  ends_with (events r) [Notify (lit "Erreur Gemini") [] []].
Proof.
  exact (@blank_error_shows_nothing silent_error empty_state
           (Exc (lit "Exception") []) eq_refl eq_refl eq_refl eq_refl
           eq_refl).
Defined.

(** ** Sleeping *)



(** ** The response log, written *)

(** X15. Two calls of [log_gemini_response] that can open the file leave the
    log as it was followed by the two blocks "\n[time] response\n", in the
    order of the calls, each with the time of its call; the clipboard is not
    touched. *)
Theorem log_gemini_response_twice
        (w1 w2 : world) (s : state) (response1 response2 : pystr) :
  open_error w1 = None ->
  open_error w2 = None ->
  let s1 := after (log_gemini_response w1 response1 s) in
  let s2 := after (log_gemini_response w2 response2 s1) in
  responses_log s2
  = responses_log s ++ response_block w1 response1
    ++ response_block w2 response2 /\
  clipboard s2 = clipboard s.
Proof.
  intros Hopen1 Hopen2 s1 s2. subst s1 s2. unfold log_gemini_response.
  rewrite Hopen1, Hopen2. cbn. now rewrite <- app_assoc.
Qed.

Lemma log_gemini_response_twice_witness :
  let s1 := after (log_gemini_response paris_world (lit "Paris")
                                       empty_state) in
  let s2 := after (log_gemini_response paris_world (lit "42") s1) in
  responses_log s2
  = responses_log empty_state ++ response_block paris_world (lit "Paris")
    ++ response_block paris_world (lit "42") /\
  clipboard s2 = clipboard empty_state.
Proof.
  exact (@log_gemini_response_twice paris_world paris_world empty_state
           (lit "Paris") (lit "42") eq_refl eq_refl).
Defined.

(** ** The capture region of the configuration *)

Lemma split_on_length (sep : pychar) (s : pystr) :
  length (split_on sep s) = S (count_occ N.eq_dec s sep).
Proof.
  induction s as [|c s IH]; [reflexivity|].
  cbn [split_on count_occ].
  destruct (N.eqb_spec c sep) as [Heq | Hneq].
  - destruct (N.eq_dec c sep) as [_ | Hn]; [|contradiction].
    cbn [length]. now rewrite IH.
  - destruct (N.eq_dec c sep) as [He | _]; [contradiction|].
    destruct (split_on sep s) as [|field fields]; [discriminate IH|].
    exact IH.
Qed.

Lemma split_on_trailing (sep : pychar) (s : pystr) :
  exists field fields, split_on sep (s ++ [sep]) = (field :: fields) ++ [[]].
Proof.
  induction s as [|c s (field & fields & IH)]; cbn [app split_on].
  - rewrite N.eqb_refl. now exists [], [].
  - rewrite IH. destruct (c =? sep)%N.
    + now exists [], (field :: fields).
    + now exists (c :: field), fields.
Qed.

Lemma map_int_length (py_int : pystr -> option Z) (fields : list pystr) :
  forall ns, map_int py_int fields = Some ns -> length ns = length fields.
Proof.
  induction fields as [|field fields IH]; intros ns; cbn [map_int].
  - intros H. now injection H as <-.
  - destruct (py_int field); [|discriminate].
    destruct (map_int py_int fields) as [ns'|]; [|discriminate].
    intros H. injection H as <-. cbn [length]. now rewrite (IH ns').
Qed.

Lemma map_int_empty_field (py_int : pystr -> option Z)
      (fields : list pystr) :
  py_int [] = None -> In [] fields -> map_int py_int fields = None.
Proof.
  intros Hempty. induction fields as [|field fields IH]; [intros []|].
  intros [-> | Hin]; cbn [map_int].
  - now rewrite Hempty.
  - destruct (py_int field); [|reflexivity]. now rewrite (IH Hin).
Qed.

(** X17. CAPTURE_BBOX cannot be loaded when a comma-separated field is
    empty ([int] rejects the empty string): in particular when the variable
    is unset, its default being the empty string, and when its value ends
    with a comma. *)
Theorem capture_bbox_empty_field
        (py_int : pystr -> option Z) (environ : pystr -> option pystr) :
  py_int [] = None ->
  (environ (lit "CAPTURE_BBOX") = None ->
   CAPTURE_BBOX py_int environ = None) /\
  (forall value,
      environ (lit "CAPTURE_BBOX") = Some value ->
      In [] (split_on comma value) ->
      CAPTURE_BBOX py_int environ = None) /\
  (forall value,
      environ (lit "CAPTURE_BBOX") = Some (value ++ [comma]) ->
      CAPTURE_BBOX py_int environ = None).
Proof.
  intros Hempty. unfold CAPTURE_BBOX, getenv. repeat split.
  - intros ->. cbn [split_on map_int]. now rewrite Hempty.
  - intros value -> Hin. now apply map_int_empty_field.
  - intros value ->. apply map_int_empty_field; [exact Hempty|].
    destruct (split_on_trailing comma value) as (field & fields & ->).
    apply in_or_app. right. now left.
Qed.

Lemma capture_bbox_empty_field_witness :
  (setenv (lit "LOG_LEVEL") (lit "DEBUG") (lit "CAPTURE_BBOX") = None ->
   CAPTURE_BBOX ascii_int (setenv (lit "LOG_LEVEL") (lit "DEBUG")) = None) /\
  (forall value,
      setenv (lit "LOG_LEVEL") (lit "DEBUG") (lit "CAPTURE_BBOX")
      = Some value ->
      In [] (split_on comma value) ->
      CAPTURE_BBOX ascii_int (setenv (lit "LOG_LEVEL") (lit "DEBUG")) = None) /\
  (forall value,
      setenv (lit "LOG_LEVEL") (lit "DEBUG") (lit "CAPTURE_BBOX")
      = Some (value ++ [comma]) ->
      CAPTURE_BBOX ascii_int (setenv (lit "LOG_LEVEL") (lit "DEBUG")) = None).
Proof.
  exact (@capture_bbox_empty_field ascii_int
           (setenv (lit "LOG_LEVEL") (lit "DEBUG")) eq_refl).
Defined.

(** X18. Nothing checks that CAPTURE_BBOX has four numbers: whenever it
    loads, the tuple has one number per comma-separated field, that is one
    more than the value has commas. *)
Theorem capture_bbox_arity
        (py_int : pystr -> option Z) (environ : pystr -> option pystr)
        (bbox : list Z) :
  CAPTURE_BBOX py_int environ = Some bbox ->
  length bbox = S (commas (getenv environ (lit "CAPTURE_BBOX") [])).
Proof.
  unfold CAPTURE_BBOX, commas. intros H.
  apply map_int_length in H. now rewrite H, split_on_length.
Qed.

Lemma capture_bbox_arity_witness :
  CAPTURE_BBOX ascii_int (setenv (lit "CAPTURE_BBOX") (lit "0,0,800"))
  = Some [0; 0; 800]%Z /\
  length [0; 0; 800]%Z
  = S (commas (getenv (setenv (lit "CAPTURE_BBOX") (lit "0,0,800"))
                      (lit "CAPTURE_BBOX") [])).
Proof.
  split; [reflexivity|].
  exact (@capture_bbox_arity ascii_int
           (setenv (lit "CAPTURE_BBOX") (lit "0,0,800")) [0; 0; 800]%Z
           eq_refl).
Defined.

(** ** Failed runs are announced *)

Lemma notifications_app (evs1 evs2 : list event) :
  notifications (evs1 ++ evs2) = notifications evs1 ++ notifications evs2.
Proof. apply flat_map_app. Qed.



(** ** What the notifier calls of a run show *)

Lemma toast_pairs_app (evs1 evs2 : list toast_event) :
  toast_pairs (evs1 ++ evs2) = toast_pairs evs1 ++ toast_pairs evs2.
Proof.
  induction evs1 as [|[lvl msg | title msg | secs] evs1 IH]; cbn;
    now rewrite ?IH.
Qed.

Lemma notify_toast_one (w : world) (title message : pystr) :
  USE_WINOTIFY w = true ->
  (1 <= length (strip message) <= 300)%nat ->
  notify_toast w title message = one_toast w title (strip message).
Proof.
  intros Hw Hlen. unfold notify_toast, one_toast. rewrite Hw.
  rewrite split_parts_short by exact Hlen.
  cbn [show_parts length Nat.ltb Nat.leb]. rewrite app_nil_r.
  now destruct (show_error w title (strip message)).
Qed.

(** A message that is already stripped and fits one toast. *)
Lemma notify_toast_fits (w : world) (title message : pystr) :
  strip message = message ->
  (Nat.leb 1 (length message) && Nat.leb (length message) 300 = true) ->
  notify_toast w title message
  = if USE_WINOTIFY w then one_toast w title message
    else fallback_record title message.
Proof.
  intros Hstrip Hlen. apply andb_true_iff in Hlen as [Hlo Hhi].
  apply Nat.leb_le in Hlo, Hhi.
  destruct (USE_WINOTIFY w) eqn:Hw.
  - rewrite notify_toast_one by (rewrite ?Hstrip; auto).
    now rewrite Hstrip.
  - now apply notify_toast_fallback.
Qed.

Lemma notify_toast_delivers (w : world) (title message : pystr) :
  delivers w title message (notify_toast w title message).
Proof.
  unfold delivers. destruct (USE_WINOTIFY w) eqn:Hw.
  - rewrite shown_notify_toast, Hw. repeat split.
    + apply split_parts_length.
    + apply split_parts_concat.
    + intros Hlen. now apply notify_toast_one.
  - now apply notify_toast_fallback.
Qed.

(** Spell out the notifier calls whose message is a constant of the
    source. *)
Ltac fit_notices :=
  repeat match goal with
         | |- context [notify_toast ?w ?title ?message] =>
             rewrite (@notify_toast_fits w title message)
               by (vm_compute; reflexivity)
         end.

(** C4 (as amended). When every attempt on Gemini fails with a retryable
    error, the run makes exactly the three attempts 1, 2, 3, writes nothing
    to the clipboard and ends in Failed; its last call of the notifier has
    the title "Erreur" and the message that no answer was obtained. With
    winotify that call hands one toast with this title and message to
    winotify (after one toast for the start and one for each retry);
    without winotify it only leaves the record "[Notification] Erreur: ..."
    and the run hands no toast at all. *)
Theorem all_attempts_busy_fails (w : world) (s : state) :
  grab_error w = None ->
  encode_error w = None ->
  (forall attempt, (1 <= attempt <= max_retries)%nat ->
                   retryable_failure w attempt = true) ->
  let r := capture_et_analyse w s in
  value r = Failed /\
  generates (events r) = [1; 2; 3]%nat /\
  copies (events r) = [] /\
  after r = s /\
  notifications (events r)
  = [(gemini_scanner, start_message);
     (gemini_scanner, retry_message 1);
     (gemini_scanner, retry_message 2);
     (gemini_scanner, retry_message 3);
     (lit "Erreur", no_answer_message)] /\
  ends_with (events r)
            [Notify (lit "Erreur") no_answer_message
                    (if USE_WINOTIFY w
                     then one_toast w (lit "Erreur") no_answer_message
                     else fallback_record (lit "Erreur") no_answer_message);
             Log ERROR (lit "Aucune r" ++ [e_acute]
                        ++ lit "ponse Gemini apr" ++ [e_grave]
                        ++ lit "s plusieurs tentatives.")] /\
  toasts (events r)
  = if USE_WINOTIFY w
    then [(gemini_scanner, start_message);
          (gemini_scanner, retry_message 1);
          (gemini_scanner, retry_message 2);
          (gemini_scanner, retry_message 3);
          (lit "Erreur", no_answer_message)]
    else [].
Proof.
  intros Hgrab Henc Hbusy r. subst r.
  pose proof (Hbusy 1%nat ltac:(unfold max_retries; lia)) as H1.
  pose proof (Hbusy 2%nat ltac:(unfold max_retries; lia)) as H2.
  pose proof (Hbusy 3%nat ltac:(unfold max_retries; lia)) as H3.
  clear Hbusy.
  name_failure H1 x1 G1 R1. name_failure H2 x2 G2 R2.
  name_failure H3 x3 G3 R3.
  run. fit_notices. destruct s, (USE_WINOTIFY w); repeat split; find_suffix.
Qed.

Lemma all_attempts_busy_fails_witness :
  let w := always_busy in
  let r := capture_et_analyse w empty_state in
  value r = Failed /\
  generates (events r) = [1; 2; 3]%nat /\
  copies (events r) = [] /\
  after r = empty_state /\
  notifications (events r)
  = [(gemini_scanner, start_message);
     (gemini_scanner, retry_message 1);
     (gemini_scanner, retry_message 2);
     (gemini_scanner, retry_message 3);
     (lit "Erreur", no_answer_message)] /\
  ends_with (events r)
            [Notify (lit "Erreur") no_answer_message
                    (if USE_WINOTIFY w
                     then one_toast w (lit "Erreur") no_answer_message
                     else fallback_record (lit "Erreur") no_answer_message);
             Log ERROR (lit "Aucune r" ++ [e_acute]
                        ++ lit "ponse Gemini apr" ++ [e_grave]
                        ++ lit "s plusieurs tentatives.")] /\
  toasts (events r)
  = if USE_WINOTIFY w
    then [(gemini_scanner, start_message);
          (gemini_scanner, retry_message 1);
          (gemini_scanner, retry_message 2);
          (gemini_scanner, retry_message 3);
          (lit "Erreur", no_answer_message)]
    else [].
Proof.
  exact (all_attempts_busy_fails always_busy empty_state
           eq_refl eq_refl (fun _ _ => eq_refl)).
Defined.

(** C4 (as stated) fails where winotify is missing: every attempt fails with
    a retryable error and the run ends in Failed, but no toast is handed to
    winotify in the whole run; the message that no answer was obtained only
    reaches the log. *)
Lemma all_attempts_busy_unseen_counterexample :
  retryable_failure busy_no_winotify 1 = true /\
  retryable_failure busy_no_winotify 2 = true /\
  retryable_failure busy_no_winotify 3 = true /\
  value (capture_et_analyse busy_no_winotify empty_state) = Failed /\
  toasts (events (capture_et_analyse busy_no_winotify empty_state)) = [] /\
  ends_with (events (capture_et_analyse busy_no_winotify empty_state))
            [Notify (lit "Erreur") no_answer_message
                    [TLog INFO (lit "[Notification] Erreur: "
                                ++ no_answer_message)];
             Log ERROR (lit "Aucune r" ++ [e_acute]
                        ++ lit "ponse Gemini apr" ++ [e_grave]
                        ++ lit "s plusieurs tentatives.")].
Proof.
  repeat split. vm_compute. find_suffix.
Qed.

(** Read the toasts off a run that has been spelled out. *)
Ltac count_toasts :=
  unfold toasts, notifier_effects;
  cbn [flat_map app one_toast fallback_record];
  rewrite ?app_nil_r; cbn [toast_pairs app];
  rewrite ?toast_pairs_app; cbn [toast_pairs app]; reflexivity.

(** C5 (as amended). When the first attempt on Gemini fails with an error
    that is not retryable, the run makes that one attempt only, writes
    nothing to the clipboard, calls the notifier exactly once about the
    error, with the title "Erreur Gemini" and the raw error text, as its
    last act, and ends in Failed. With winotify that call hands the
    stripped error text to winotify in ceil(len / 300) toasts: exactly one
    toast, titled "Erreur Gemini", when the stripped text has 1 to 300
    characters, several numbered ones when it is longer, none when it is
    blank. Without winotify it hands no toast and leaves one record with
    the first 256 characters. *)
Theorem permanent_error_stops (w : world) (s : state) (x : exception) :
  grab_error w = None ->
  encode_error w = None ->
  generate_content w 1 = inr x ->
  retryable (exc_str x) = false ->
  let r := capture_et_analyse w s in
  let effects := notify_toast w (lit "Erreur Gemini") (exc_str x) in
  value r = Failed /\
  generates (events r) = [1%nat] /\
  copies (events r) = [] /\
  after r = s /\
  notifications (events r)
  = [(gemini_scanner, start_message); (lit "Erreur Gemini", exc_str x)] /\
  ends_with (events r)
            [Notify (lit "Erreur Gemini") (exc_str x) effects] /\
  toasts (events r)
  = (if USE_WINOTIFY w then [(gemini_scanner, start_message)] else [])
    ++ toast_pairs effects /\
  delivers w (lit "Erreur Gemini") (exc_str x) effects.
Proof.
  intros Hgrab Henc Hgen Hperm r effects. subst r effects. run.
  fit_notices. destruct s.
  repeat split; try find_suffix; try apply notify_toast_delivers.
  destruct (USE_WINOTIFY w); count_toasts.
Qed.

Lemma permanent_error_stops_witness :
  let w := rejected_key in
  let x := invalid_key in
  let r := capture_et_analyse w empty_state in
  let effects := notify_toast w (lit "Erreur Gemini") (exc_str x) in
  value r = Failed /\
  generates (events r) = [1%nat] /\
  copies (events r) = [] /\
  after r = empty_state /\
  notifications (events r)
  = [(gemini_scanner, start_message); (lit "Erreur Gemini", exc_str x)] /\
  ends_with (events r)
            [Notify (lit "Erreur Gemini") (exc_str x) effects] /\
  toasts (events r)
  = (if USE_WINOTIFY w then [(gemini_scanner, start_message)] else [])
    ++ toast_pairs effects /\
  delivers w (lit "Erreur Gemini") (exc_str x) effects.
Proof.
  exact (permanent_error_stops rejected_key empty_state (x := invalid_key)
           eq_refl eq_refl eq_refl eq_refl).
Defined.

(** C5 (as stated) fails for a permanent error of 650 characters: the run
    makes one attempt and ends in Failed, but the error is shown as three
    toasts, numbered 1/3 to 3/3, and none of them contains the raw text. *)
Lemma long_error_three_toasts_counterexample :
  generate_content long_error 1
  = inr (Exc (lit "InvalidArgument") long_message) /\
  retryable long_message = false /\
  value (capture_et_analyse long_error empty_state) = Failed /\
  generates (events (capture_et_analyse long_error empty_state)) = [1%nat] /\
  toasts (events (capture_et_analyse long_error empty_state))
  = [(gemini_scanner, start_message);
     (lit "Erreur Gemini (1/3)", repeat 97%N 300);
     (lit "Erreur Gemini (2/3)", repeat 97%N 300);
     (lit "Erreur Gemini (3/3)", repeat 97%N 50)] /\
  ~ In long_message
       (map snd (toasts (events (capture_et_analyse long_error
                                                  empty_state)))).
Proof.
  repeat split; try (vm_compute; reflexivity).
  intros H. vm_compute in H.
  repeat (destruct H as [H | H]; [discriminate H|]). exact H.
Qed.

(** C8 (as amended). When the screen grab raises, the run logs the error,
    calls the notifier with the title "Erreur capture" and the error text
    and returns at once: one grab, no attempt on Gemini, no clipboard
    write, nothing after that call, and the state is left as it was. With
    winotify the call hands the stripped error text to winotify in
    ceil(len / 300) toasts (one under the bare title for 1 to 300
    characters, none for a blank text); without winotify it hands no toast
    and leaves one record with the first 256 characters. *)
Theorem capture_failure_aborts (w : world) (s : state) (x : exception) :
  grab_error w = Some x ->
  let r := capture_et_analyse w s in
  let effects := notify_toast w (lit "Erreur capture") (exc_str x) in
  r = Ran Failed
          [Log INFO (lit "D" ++ [e_acute] ++ lit "but capture_et_analyse");
           Notify (lit "Gemini Scanner")
                  (lit "Analyse en cours (capture auto)...")
                  (notify_toast w (lit "Gemini Scanner")
                                (lit "Analyse en cours (capture auto)..."));
           Grab;
           Log ERROR (lit "Erreur capture " ++ [e_acute] ++ lit "cran: "
                      ++ exc_str x);
           Notify (lit "Erreur capture") (exc_str x) effects]
          s /\
  grabs (events r) = 1%nat /\
  generates (events r) = [] /\
  copies (events r) = [] /\
  toasts (events r)
  = (if USE_WINOTIFY w then [(gemini_scanner, start_message)] else [])
    ++ toast_pairs effects /\
  delivers w (lit "Erreur capture") (exc_str x) effects.
Proof.
  intros Hgrab r effects. subst r effects.
  rewrite (@capture_et_analyse_no_grab w s x Hgrab). cbn [events].
  repeat split; try apply notify_toast_delivers.
  fit_notices. destruct (USE_WINOTIFY w); count_toasts.
Qed.

Lemma capture_failure_aborts_witness :
  let w := no_display in
  let x := os_error in
  let r := capture_et_analyse w empty_state in
  let effects := notify_toast w (lit "Erreur capture") (exc_str x) in
  r = Ran Failed
          [Log INFO (lit "D" ++ [e_acute] ++ lit "but capture_et_analyse");
           Notify (lit "Gemini Scanner")
                  (lit "Analyse en cours (capture auto)...")
                  (notify_toast w (lit "Gemini Scanner")
                                (lit "Analyse en cours (capture auto)..."));
           Grab;
           Log ERROR (lit "Erreur capture " ++ [e_acute] ++ lit "cran: "
                      ++ exc_str x);
           Notify (lit "Erreur capture") (exc_str x) effects]
          empty_state /\
  grabs (events r) = 1%nat /\
  generates (events r) = [] /\
  copies (events r) = [] /\
  toasts (events r)
  = (if USE_WINOTIFY w then [(gemini_scanner, start_message)] else [])
    ++ toast_pairs effects /\
  delivers w (lit "Erreur capture") (exc_str x) effects.
Proof.
  exact (capture_failure_aborts no_display empty_state (x := os_error)
           eq_refl).
Defined.

(** C8 (as stated) fails for a grab exception that has no text: the run
    ends in Failed after the grab, and the only toast of the run is the
    start notice; the call about the error shows nothing. *)
Lemma blank_grab_error_unseen_counterexample :
  grab_error blank_grab_error = Some (Exc (lit "OSError") []) /\
  value (capture_et_analyse blank_grab_error empty_state) = Failed /\
  toasts (events (capture_et_analyse blank_grab_error empty_state))
  = [(gemini_scanner, start_message)] /\
  ends_with (events (capture_et_analyse blank_grab_error empty_state))
            [Notify (lit "Erreur capture") [] []].
Proof.
  repeat split. vm_compute. find_suffix.
Qed.

(** C10 (as amended). When an attempt on Gemini (the first, or one that
    follows busy replies) returns a text that is empty once stripped, and
    the clipboard accepts the write, the loop is left by [break] after
    writing the empty string to the clipboard; no further attempt is made,
    and the run ends in Failed, not Succeeded, its last call of the
    notifier having the title "Erreur" and the message that no answer was
    obtained. With winotify that call hands one toast with this title and
    message to winotify; without winotify it only leaves the record
    "[Notification] Erreur: ..." and the run hands no toast at all. *)
Theorem blank_answer_reports_failure
        (w : world) (s : state) (k : nat) (text : pystr) :
  grab_error w = None ->
  encode_error w = None ->
  (k < max_retries)%nat ->
  (forall attempt, (1 <= attempt <= k)%nat ->
                   retryable_failure w attempt = true) ->
  generate_content w (S k) = inl text ->
  strip text = [] ->
  copy_error w [] = None ->
  let r := capture_et_analyse w s in
  value r = Failed /\
  generates (events r) = seq 1 (S k) /\
  copies (events r) = [[]] /\
  clipboard (after r) = [] /\
  notifications (events r)
  = (gemini_scanner, start_message)
    :: map (fun attempt => (gemini_scanner, retry_message attempt)) (seq 1 k)
    ++ [(lit "Erreur", no_answer_message)] /\
  ends_with (events r)
            [Notify (lit "Erreur") no_answer_message
                    (if USE_WINOTIFY w
                     then one_toast w (lit "Erreur") no_answer_message
                     else fallback_record (lit "Erreur") no_answer_message);
             Log ERROR (lit "Aucune r" ++ [e_acute]
                        ++ lit "ponse Gemini apr" ++ [e_grave]
                        ++ lit "s plusieurs tentatives.")] /\
  toasts (events r)
  = if USE_WINOTIFY w
    then (gemini_scanner, start_message)
         :: map (fun attempt => (gemini_scanner, retry_message attempt))
                (seq 1 k)
         ++ [(lit "Erreur", no_answer_message)]
    else [].
Proof.
  intros Hgrab Henc Hk Hbusy Hgen Hblank Hcopy r. subst r.
  unfold max_retries in Hk.
  destruct k as [|[|[|k]]]; [| | |lia].
  - clear Hbusy. run. fit_notices.
    destruct (USE_WINOTIFY w); repeat split; find_suffix.
  - pose proof (Hbusy 1%nat ltac:(lia)) as H1. clear Hbusy.
    name_failure H1 x1 G1 R1. run. fit_notices.
    destruct (USE_WINOTIFY w); repeat split; find_suffix.
  - pose proof (Hbusy 1%nat ltac:(lia)) as H1.
    pose proof (Hbusy 2%nat ltac:(lia)) as H2. clear Hbusy.
    name_failure H1 x1 G1 R1. name_failure H2 x2 G2 R2. run. fit_notices.
    destruct (USE_WINOTIFY w); repeat split; find_suffix.
Qed.

Lemma blank_answer_reports_failure_witness :
  let w := busy_then 1 [32; 10; 9]%N in
  let r := capture_et_analyse w empty_state in
  value r = Failed /\
  generates (events r) = seq 1 2 /\
  copies (events r) = [[]] /\
  clipboard (after r) = [] /\
  notifications (events r)
  = (gemini_scanner, start_message)
    :: map (fun attempt => (gemini_scanner, retry_message attempt)) (seq 1 1)
    ++ [(lit "Erreur", no_answer_message)] /\
  ends_with (events r)
            [Notify (lit "Erreur") no_answer_message
                    (if USE_WINOTIFY w
                     then one_toast w (lit "Erreur") no_answer_message
                     else fallback_record (lit "Erreur") no_answer_message);
             Log ERROR (lit "Aucune r" ++ [e_acute]
                        ++ lit "ponse Gemini apr" ++ [e_grave]
                        ++ lit "s plusieurs tentatives.")] /\
  toasts (events r)
  = if USE_WINOTIFY w
    then (gemini_scanner, start_message)
         :: map (fun attempt => (gemini_scanner, retry_message attempt))
                (seq 1 1)
         ++ [(lit "Erreur", no_answer_message)]
    else [].
Proof.
  refine (blank_answer_reports_failure (busy_then 1 [32; 10; 9]%N) empty_state
            (k := 1) (text := [32; 10; 9]%N) eq_refl eq_refl _ _ eq_refl
            eq_refl eq_refl).
  - unfold max_retries. lia.
  - intros attempt H. assert (attempt = 1)%nat as -> by lia. reflexivity.
Defined.

(** C10 (as stated) fails where the clipboard refuses the write: Gemini
    answers with two spaces at the first attempt, the write of the empty
    string raises, and the run ends with the notice of that exception under
    "Erreur Gemini", never saying that no answer was obtained; the
    clipboard still holds what it held. *)
Lemma blank_answer_locked_counterexample :
  generate_content blank_reply_locked 1 = inl (lit "  ") /\
  strip (lit "  ") = [] /\
  value (capture_et_analyse blank_reply_locked old_clipboard) = Failed /\
  notifications (events (capture_et_analyse blank_reply_locked old_clipboard))
  = [(gemini_scanner, start_message);
     (lit "Erreur Gemini", lit "could not open the clipboard")] /\
  clipboard (after (capture_et_analyse blank_reply_locked old_clipboard))
  = lit "old" /\
  clipboard (after (capture_et_analyse blank_reply_locked old_clipboard))
  <> [].
Proof.
  repeat split; try reflexivity. discriminate.
Qed.

(** C6 (as amended). The backoff starts at 2 and doubles after each
    retryable failure. In a run with two such failures and then an answer
    that the clipboard accepts, the run sleeps 2 then 4 (and, when the
    answer is not blank, the 2 of the success path) and calls the notifier
    with "retry 1/3" and "retry 2/3"; in a run where all three attempts fail
    it sleeps 2, 4, 8 and calls it with "retry 1/3", "retry 2/3" and
    "retry 3/3". With winotify each of these calls hands one toast titled
    "Gemini Scanner" with that message to winotify; without winotify the
    runs hand no toast. *)
Theorem backoff_two_then_four
        (w2 w3 : world) (s : state) (text : pystr) :
  grab_error w2 = None ->
  encode_error w2 = None ->
  retryable_failure w2 1 = true ->
  retryable_failure w2 2 = true ->
  generate_content w2 3 = inl text ->
  copy_error w2 (strip text) = None ->
  grab_error w3 = None ->
  encode_error w3 = None ->
  (forall attempt, (1 <= attempt <= max_retries)%nat ->
                   retryable_failure w3 attempt = true) ->
  let r2 := capture_et_analyse w2 s in
  let r3 := capture_et_analyse w3 s in
  let retry_1 := lit "Serveur occup" ++ [e_acute] ++ lit ", retry 1/3..." in
  let retry_2 := lit "Serveur occup" ++ [e_acute] ++ lit ", retry 2/3..." in
  let retry_3 := lit "Serveur occup" ++ [e_acute] ++ lit ", retry 3/3..." in
  sleeps (events r2)
  = 2%Z :: 4%Z :: match strip text with [] => [] | _ :: _ => [2%Z] end /\
  notifications (events r2)
  = (gemini_scanner, start_message)
    :: (gemini_scanner, retry_1)
    :: (gemini_scanner, retry_2)
    :: match strip text with
       | [] => [(lit "Erreur", no_answer_message)]
       | _ :: _ => [(gemini_scanner, strip text);
                    (gemini_scanner, copied_message)]
       end /\
  toasts (events r2)
  = (if USE_WINOTIFY w2
     then (gemini_scanner, start_message)
          :: (gemini_scanner, retry_1)
          :: (gemini_scanner, retry_2)
          :: match strip text with
             | [] => [(lit "Erreur", no_answer_message)]
             | _ :: _ =>
                 toast_pairs (notify_toast w2 gemini_scanner (strip text))
                 ++ [(gemini_scanner, copied_message)]
             end
     else []) /\
  sleeps (events r3) = [2; 4; 8]%Z /\
  notifications (events r3)
  = [(gemini_scanner, start_message);
     (gemini_scanner, retry_1);
     (gemini_scanner, retry_2);
     (gemini_scanner, retry_3);
     (lit "Erreur", no_answer_message)] /\
  toasts (events r3)
  = if USE_WINOTIFY w3
    then [(gemini_scanner, start_message);
          (gemini_scanner, retry_1);
          (gemini_scanner, retry_2);
          (gemini_scanner, retry_3);
          (lit "Erreur", no_answer_message)]
    else [].
Proof.
  intros Hgrab2 Henc2 H1 H2 G3 Hcopy Hgrab3 Henc3 Hbusy
         r2 r3 retry_1 retry_2 retry_3.
  subst r2 r3 retry_1 retry_2 retry_3.
  name_failure H1 x1 G1 R1. name_failure H2 x2 G2 R2.
  pose proof (Hbusy 1%nat ltac:(unfold max_retries; lia)) as B1.
  pose proof (Hbusy 2%nat ltac:(unfold max_retries; lia)) as B2.
  pose proof (Hbusy 3%nat ltac:(unfold max_retries; lia)) as B3.
  clear Hbusy.
  name_failure B1 y1 F1 S1. name_failure B2 y2 F2 S2.
  name_failure B3 y3 F3 S3.
  assert (Hsuccess :
            sleeps (events (capture_et_analyse w2 s))
            = 2%Z :: 4%Z
              :: match strip text with [] => [] | _ :: _ => [2%Z] end /\
            notifications (events (capture_et_analyse w2 s))
            = (gemini_scanner, start_message)
              :: (gemini_scanner, retry_message 1)
              :: (gemini_scanner, retry_message 2)
              :: match strip text with
                 | [] => [(lit "Erreur", no_answer_message)]
                 | _ :: _ => [(gemini_scanner, strip text);
                              (gemini_scanner, copied_message)]
                 end /\
            toasts (events (capture_et_analyse w2 s))
            = (if USE_WINOTIFY w2
               then (gemini_scanner, start_message)
                    :: (gemini_scanner, retry_message 1)
                    :: (gemini_scanner, retry_message 2)
                    :: match strip text with
                       | [] => [(lit "Erreur", no_answer_message)]
                       | _ :: _ =>
                           toast_pairs (notify_toast w2 gemini_scanner
                                                     (strip text))
                           ++ [(gemini_scanner, copied_message)]
                       end
               else [])).
  { destruct (strip text) as [|c answer] eqn:Hstrip; run; fit_notices;
      (destruct (USE_WINOTIFY w2) eqn:Hw;
       [| pose proof (fun title message =>
                        @notify_toast_fallback w2 title message Hw) as Hlog;
          try rewrite !Hlog ]);
      repeat split; count_toasts. }
  assert (Hfailure :
            sleeps (events (capture_et_analyse w3 s)) = [2; 4; 8]%Z /\
            notifications (events (capture_et_analyse w3 s))
            = [(gemini_scanner, start_message);
               (gemini_scanner, retry_message 1);
               (gemini_scanner, retry_message 2);
               (gemini_scanner, retry_message 3);
               (lit "Erreur", no_answer_message)] /\
            toasts (events (capture_et_analyse w3 s))
            = if USE_WINOTIFY w3
              then [(gemini_scanner, start_message);
                    (gemini_scanner, retry_message 1);
                    (gemini_scanner, retry_message 2);
                    (gemini_scanner, retry_message 3);
                    (lit "Erreur", no_answer_message)]
              else []).
  { run. fit_notices. destruct (USE_WINOTIFY w3); repeat split. }
  destruct Hsuccess as (Hs1 & Hs2 & Hs3).
  destruct Hfailure as (Hf1 & Hf2 & Hf3).
  repeat split; assumption.
Qed.

Lemma backoff_two_then_four_witness :
  let w2 := busy_then 2 (lit "42") in
  let w3 := always_busy in
  let text := lit "42" in
  let r2 := capture_et_analyse w2 empty_state in
  let r3 := capture_et_analyse w3 empty_state in
  let retry_1 := lit "Serveur occup" ++ [e_acute] ++ lit ", retry 1/3..." in
  let retry_2 := lit "Serveur occup" ++ [e_acute] ++ lit ", retry 2/3..." in
  let retry_3 := lit "Serveur occup" ++ [e_acute] ++ lit ", retry 3/3..." in
  sleeps (events r2)
  = 2%Z :: 4%Z :: match strip text with [] => [] | _ :: _ => [2%Z] end /\
  notifications (events r2)
  = (gemini_scanner, start_message)
    :: (gemini_scanner, retry_1)
    :: (gemini_scanner, retry_2)
    :: match strip text with
       | [] => [(lit "Erreur", no_answer_message)]
       | _ :: _ => [(gemini_scanner, strip text);
                    (gemini_scanner, copied_message)]
       end /\
  toasts (events r2)
  = (if USE_WINOTIFY w2
     then (gemini_scanner, start_message)
          :: (gemini_scanner, retry_1)
          :: (gemini_scanner, retry_2)
          :: match strip text with
             | [] => [(lit "Erreur", no_answer_message)]
             | _ :: _ =>
                 toast_pairs (notify_toast w2 gemini_scanner (strip text))
                 ++ [(gemini_scanner, copied_message)]
             end
     else []) /\
  sleeps (events r3) = [2; 4; 8]%Z /\
  notifications (events r3)
  = [(gemini_scanner, start_message);
     (gemini_scanner, retry_1);
     (gemini_scanner, retry_2);
     (gemini_scanner, retry_3);
     (lit "Erreur", no_answer_message)] /\
  toasts (events r3)
  = if USE_WINOTIFY w3
    then [(gemini_scanner, start_message);
          (gemini_scanner, retry_1);
          (gemini_scanner, retry_2);
          (gemini_scanner, retry_3);
          (lit "Erreur", no_answer_message)]
    else [].
Proof.
  exact (@backoff_two_then_four (busy_then 2 (lit "42")) always_busy
           empty_state (lit "42")
           eq_refl eq_refl eq_refl eq_refl eq_refl eq_refl
           eq_refl eq_refl (fun _ _ => eq_refl)).
Defined.

(** C6 (as stated) fails in two ways. Where the clipboard is in use and
    says so with the word UNAVAILABLE, the answer of the third attempt is
    taken for a busy server: the run sleeps 2, 4 and then 8 and announces a
    retry 3/3 although Gemini answered. Where winotify is missing, the
    retries are announced by no toast. *)
Lemma backoff_after_answer_counterexample :
  (retryable_failure busy_clipboard 1 = true /\
   retryable_failure busy_clipboard 2 = true /\
   generate_content busy_clipboard 3 = inl (lit "42") /\
   firstn 3 (sleeps (events (capture_et_analyse busy_clipboard empty_state)))
   = [2; 4; 8]%Z /\
   In (gemini_scanner, retry_message 3)
      (notifications (events (capture_et_analyse busy_clipboard
                                                 empty_state)))) /\
  (retryable_failure busy_twice_no_winotify 1 = true /\
   retryable_failure busy_twice_no_winotify 2 = true /\
   generate_content busy_twice_no_winotify 3 = inl (lit "42") /\
   sleeps (events (capture_et_analyse busy_twice_no_winotify empty_state))
   = [2; 4; 2]%Z /\
   toasts (events (capture_et_analyse busy_twice_no_winotify empty_state))
   = []).
Proof.
  repeat split; try reflexivity.
  vm_compute. do 3 right. now left.
Qed.

(** ** The notifier calls of a run in any world *)








(** ** Failed runs end with a notice *)

Lemma notices_app (evs1 evs2 : list event) :
  notices (evs1 ++ evs2) = notices evs1 ++ notices evs2.
Proof. apply flat_map_app. Qed.

(** When the loop is left by [return], its last notifier call carries the
    title "Erreur Gemini" and the text of the exception, not retryable, in
    which one of its attempts ended. *)
Lemma analyse_loop_return_notice (w : world) (attempts : list nat) :
  forall delay answer s,
    value (analyse_loop w attempts delay answer s) = LoopReturn ->
    exists before attempt x,
      In attempt attempts /\
      raised_at w attempt x /\
      retryable (exc_str x) = false /\
      notices (events (analyse_loop w attempts delay answer s))
      = before
        ++ [(lit "Erreur Gemini", exc_str x,
             notify_toast w (lit "Erreur Gemini") (exc_str x))].
Proof.
  induction attempts as [|attempt rest IH]; intros delay answer s.
  - discriminate.
  - loop_cases w s attempt rest delay answer; cbn zeta; cbn [value events];
      intros H; try discriminate H.
    + destruct (IH _ _ _ H) as (before & a & y & Ha & Hraised & Hy & Hn).
      exists ((gemini_scanner, retry_message attempt,
               notify_toast w gemini_scanner (retry_message attempt))
              :: before), a, y.
      repeat split; try assumption; [now right|].
      rewrite notices_app, Hn. reflexivity.
    + exists [], attempt, x. repeat split; try assumption; [now left|].
      right. now exists text.
    + destruct (IH _ _ _ H) as (before & a & y & Ha & Hraised & Hy & Hn).
      exists ((gemini_scanner, retry_message attempt,
               notify_toast w gemini_scanner (retry_message attempt))
              :: before), a, y.
      repeat split; try assumption; [now right|].
      rewrite notices_app, Hn. reflexivity.
    + exists [], attempt, x. repeat split; try assumption; [now left|].
      now left.
Qed.

(** X19. In every world a run that ends in Failed ends with a call of the
    notifier, and that call is one of three: "Erreur capture" with the text
    of the exception of the grab; "Erreur Gemini" with the text of the
    exception, not retryable, in which one of the attempts 1 to 3 ended
    (raised by Gemini or by the clipboard write); or "Erreur" with the
    message that no answer was obtained. What the call shows is what
    [notify_toast] does with that title and message: with winotify the
    stripped message in ceil(len / 300) toasts (none for a blank text),
    without winotify no toast and one record with the first 256
    characters. *)
Theorem failed_run_is_announced (w : world) (s : state) :
  value (capture_et_analyse w s) = Failed ->
  exists before title message,
    notices (events (capture_et_analyse w s))
    = before ++ [(title, message, notify_toast w title message)] /\
    delivers w title message (notify_toast w title message) /\
    ((title = lit "Erreur capture" /\
      exists x, grab_error w = Some x /\ message = exc_str x) \/
     (title = lit "Erreur Gemini" /\
      exists attempt x,
        (1 <= attempt <= 3)%nat /\ raised_at w attempt x /\
        retryable (exc_str x) = false /\ message = exc_str x) \/
     (title = lit "Erreur" /\ message = no_answer_message)).
Proof.
  run_cases w s; try discriminate.
  - intros _.
    exists [(gemini_scanner, start_message,
             notify_toast w gemini_scanner start_message)],
      (lit "Erreur capture"), (exc_str x).
    split; [reflexivity|]. split; [apply notify_toast_delivers|].
    left. split; [reflexivity|]. now exists x.
  - pose proof (analyse_loop_return_notice w (seq 1 max_retries) 2 None s)
      as Hreturn.
    cbn zeta in *.
    destruct (analyse_loop w (seq 1 max_retries) 2 None s) as [v evs s1].
    cbn [value events after] in *.
    destruct v as [[[|c answer]|]|];
      try destruct (copy_error w (c :: answer));
      cbn [value events]; intros H; try discriminate H.
    + exists (notices (run_prefix w) ++ notices evs),
        (lit "Erreur"), no_answer_message.
      split; [|split; [apply notify_toast_delivers | now right; right]].
      rewrite !notices_app, <- app_assoc. reflexivity.
    + exists (notices (run_prefix w) ++ notices evs),
        (lit "Erreur"), no_answer_message.
      split; [|split; [apply notify_toast_delivers | now right; right]].
      rewrite !notices_app, <- app_assoc. reflexivity.
    + destruct (Hreturn eq_refl)
        as (before & attempt & y & Hin & Hraised & Hperm & Hn).
      exists (notices (run_prefix w) ++ before),
        (lit "Erreur Gemini"), (exc_str y).
      split; [|split; [apply notify_toast_delivers|]].
      * rewrite notices_app, Hn, <- app_assoc. reflexivity.
      * right. left. split; [reflexivity|]. exists attempt, y.
        apply in_seq in Hin. unfold max_retries in Hin.
        repeat split; try assumption; lia.
Qed.

Lemma failed_run_is_announced_witness :
  let w := rejected_key in
  exists before title message,
    notices (events (capture_et_analyse w empty_state))
    = before ++ [(title, message, notify_toast w title message)] /\
    delivers w title message (notify_toast w title message) /\
    ((title = lit "Erreur capture" /\
      exists x, grab_error w = Some x /\ message = exc_str x) \/
     (title = lit "Erreur Gemini" /\
      exists attempt x,
        (1 <= attempt <= 3)%nat /\ raised_at w attempt x /\
        retryable (exc_str x) = false /\ message = exc_str x) \/
     (title = lit "Erreur" /\ message = no_answer_message)).
Proof.
  exact (failed_run_is_announced rejected_key empty_state eq_refl).
Defined.
